(** * perf-aero-sim: climb / descent trajectory integrator

    A shallow embedding of the numerical core of the [aircraft_preformance]
    package (airspeed conversions, propulsion model, pilot pitch law,
    equations of motion and the explicit-Euler integrators of
    [sim_climb_descent/simulation.py]) together with the properties its
    specification states about it.

    Number model.  The Python code computes with IEEE doubles wrapped in
    [pint] quantities.  Here a quantity is its magnitude, a real number, in
    the unit the code holds it in (metres, newtons, metres per second,
    radians, seconds; grams for the burnt fuel, milligrams per second for the
    fuel flow, kilonewtons for the engine thrust of [const.py]).  The
    arithmetic of doubles is idealised to the arithmetic of [R]; the explicit
    decimal roundings of the code ([np.round]) are kept, as they are part of
    the program's logic.  Unit conversions that [pint] performs implicitly
    when quantities of different units are added are written out.

    The standard atmosphere (library [ambiance]) and the module
    [aerodynamic_char] are collaborators of the modelled code: they appear
    as parameters ([Atmosphere], [AeroChar]), total functions of their
    arguments.  The two [while True] loops are run for a bounded number of
    passes; a statement about a run quantifies over that bound. *)

From Stdlib Require Import Reals Lra Lia ZArith List Ascii String Bool.
From Stdlib Require Import DecimalString.
Import ListNotations.

Local Open Scope R_scope.

(** ** numpy scalar functions used by the code *)

Module NumPy.

(** [np.rint]: nearest integer, ties to the even neighbour. *)
Definition rint (x : R) : Z :=
  let f := Int_part x in
  let r := frac_part x in
  if Rlt_dec r (1 / 2) then f
  else if Rlt_dec (1 / 2) r then (f + 1)%Z
  else if Z.even f then f else (f + 1)%Z.

(** [np.round(x, decimals)] for a non-negative number of decimals:
    scale, round to the nearest integer, scale back. *)
Definition round (x : R) (decimals : nat) : R :=
  IZR (rint (x * 10 ^ decimals)) / 10 ^ decimals.

(** [np.abs]; [np.sqrt], [np.sin] and [np.cos] are [sqrt], [sin] and
    [cos] of the reals. *)
Definition abs (x : R) : R := Rabs x.

(** [np.power(x, y)] with a real exponent, on the positive bases the
    airspeed formulas feed it. *)
Definition power (x y : R) : R := Rpower x y.

End NumPy.

(** ** The atmosphere collaborator

    [Atmosphere(h)] of the [ambiance] library, read at the four properties
    the code uses; the argument is the altitude in metres. *)

Record Atmosphere : Type := mkAtmosphere {
  density : R -> R;          (* kg/m^3 *)
  pressure : R -> R;         (* Pa *)
  temperature : R -> R;      (* K *)
  speed_of_sound : R -> R    (* m/s *)
}.

(** ** helpers/airspeed.py *)

Module Airspeed.
Section WithAtmosphere.
Variable atm : Atmosphere.

(** The conversions are written over the final rounding [rnd], so that the
    formula and its rounding can be told apart; the functions of the
    source are the instances at [np.round(_, 2)] and [np.round(_, 3)]. *)

Definition gamma_air : R := 14 / 10.

Definition cas2tas_with (rnd : R -> R) (v_cas h : R) : R :=
  let rho_at_h := density atm h in
  let rho_at_sl := density atm 0 in
  let p_at_h := pressure atm h in
  let p_at_sl := pressure atm 0 in
  let gamma := gamma_air in
  let g_r := gamma / (gamma - 1) in
  let p1 := 1 + (/ (2 * g_r)) * (rho_at_sl / p_at_sl) * v_cas ^ 2 in
  let p2 := NumPy.power p1 g_r in
  let p3 := NumPy.power (1 + ((p_at_sl / p_at_h) * (p2 - 1))) (1 / g_r) in
  let v_tas := sqrt (2 * g_r * (p_at_h / rho_at_h) * (p3 - 1)) in
  rnd v_tas.

Definition cas2tas (v_cas h : R) : R :=
  cas2tas_with (fun v => NumPy.round v 2) v_cas h.

Definition cas2mach (v_cas h : R) : R :=
  let v_tas := cas2tas v_cas h in
  let v_sound := speed_of_sound atm h in
  let mach := v_tas / v_sound in
  NumPy.round mach 3.

Definition tas2cas_with (rnd : R -> R) (v_tas h : R) : R :=
  let rho_at_h := density atm h in
  let rho_at_sl := density atm 0 in
  let p_at_h := pressure atm h in
  let p_at_sl := pressure atm 0 in
  let gamma := gamma_air in
  let g_r := gamma / (gamma - 1) in
  let p1 := 1 + (/ (2 * g_r)) * (rho_at_h / p_at_h) * v_tas ^ 2 in
  let p2 := NumPy.power p1 g_r - 1 in
  let p3 := NumPy.power (((p_at_h / p_at_sl) * p2) + 1) (1 / g_r) in
  let p4 := p3 - 1 in
  let v_cas := sqrt (2 * g_r * (p_at_sl / rho_at_sl) * p4) in
  rnd v_cas.

Definition tas2cas (v_tas h : R) : R :=
  tas2cas_with (fun v => NumPy.round v 2) v_tas h.

Definition tas2mach (v_tas h : R) : R :=
  let v_sound := speed_of_sound atm h in
  let mach := v_tas / v_sound in
  NumPy.round mach 3.

End WithAtmosphere.
End Airspeed.

(** ** helpers/aerodynamics.py *)

Module Aerodynamics.
Section WithAtmosphere.
Variable atm : Atmosphere.

Definition c_l_steady (v_cas altitude weight wing_area : R) : R :=
  let rho_at_h := density atm altitude in
  let v_tas := Airspeed.cas2tas atm v_cas altitude in
  let lift := weight in
  let lift_coeff := (2 * lift) / (rho_at_h * wing_area * v_tas ^ 2) in
  NumPy.round lift_coeff 4.

End WithAtmosphere.
End Aerodynamics.

(** ** sim_climb_descent/const.py *)

Module Const.
Definition Grav_const : R := 980665 / 100000.   (* m/s^2 *)
Definition S : R := 500.                        (* m^2 *)
Definition MTOW : R := 3600000.                 (* N *)
Definition W_fuel : R := 1600000.               (* N *)
Definition Max_Thrust_SE_SL : R := 270.         (* kN *)
Definition BPR : R := 5.
End Const.

(** ** sim_climb_descent/thrust_model.py *)

Module ThrustModel.
Section WithAtmosphere.
Variable atm : Atmosphere.

(** The three lapse polynomials in the pressure ratio, named as in the
    source's comment "compute A, X, and Z". *)
Definition coeff_a (delta : R) : R :=
  (- (4327 / 10000) * delta ^ 2) + ((13855 / 10000) * delta) + 472 / 10000.
Definition coeff_x (delta : R) : R :=
  ((9106 / 10000) * delta ^ 3) - ((17736 / 10000) * delta ^ 2)
  + ((18697 / 10000) * delta).
Definition coeff_z (delta : R) : R :=
  ((1377 / 10000) * delta ^ 3) - ((4374 / 10000) * delta ^ 2)
  + ((13003 / 10000) * delta).

Definition max_thrust_model (thrust_max_sl bpr h mach : R) : R :=
  let g_0 := 6375 / 10000 + ((604 / 10000) * bpr) in
  let p_h := pressure atm h in
  let p_sl := pressure atm 0 in
  let a := coeff_a (p_h / p_sl) in
  let x := coeff_x (p_h / p_sl) in
  let z := coeff_z (p_h / p_sl) in
  let temp_term_1 :=
    z * mach * ((377 / 1000) * (1 + bpr))
    / sqrt (g_0 * (1 + ((82 / 100) * bpr))) in
  let temp_term_2 := (23 / 100 + ((19 / 100) * sqrt bpr)) * x * mach ^ 2 in
  let thrust_max_h := (a - temp_term_1 + temp_term_2) * thrust_max_sl in
  NumPy.round thrust_max_h 4.

(** Thrust-specific fuel consumption, in mg/s per newton. *)
Definition tsfc (mach h : R) : R :=
  let temp_h := temperature atm h in
  let temp_sl := temperature atm 0 in
  let theta := temp_h / temp_sl in
  11 * (1 + mach) * sqrt theta.

(** [fuel_flow(thrust, mach, h)]: thrust in newtons, result in mg/s. *)
Definition fuel_flow (thrust mach h : R) : R :=
  let c_t := tsfc mach h in
  NumPy.round (c_t * thrust) 4.

End WithAtmosphere.
End ThrustModel.

(** ** sim_climb_descent/eom.py *)

Module Eom.

Definition inst_dv_dt (thrust drag w gamma : R) : R :=
  NumPy.round
    ((Const.Grav_const / w) * (thrust - drag - (w * sin gamma))) 4.

Definition inst_dgamma_dt (lift w v_tas : R) : R :=
  (Const.Grav_const / w) * (1 / v_tas) * (lift - w).

End Eom.

(** ** sim_climb_descent/aerodynamic_char.py (collaborator)

    [simulation.py] imports [aoa_steady_staight], [drag] and
    [gamma_steady_straight] from this module; forces are in newtons,
    angles in radians. *)

Record AeroChar : Type := mkAeroChar {
  aoa_steady_staight : R -> R -> R -> R -> R;   (* v_cas, h, w, S *)
  drag : R -> R -> R -> R -> R;                 (* v_cas, h, c_l, S *)
  gamma_steady_straight : R -> R -> R -> R      (* thrust, drag, w *)
}.

(** ** sim_climb_descent/pilot_control.py *)

Module PilotControl.
Section WithAtmosphere.
Variable atm : Atmosphere.

Definition pilot_pitch_control
    (k_p theta_trim v_ref v_ias h cruise_mach : R) (phase : string) : R :=
  let v_sound := speed_of_sound atm h in
  let v_error :=
    if String.eqb phase "climb" then
      if Rlt_dec (NumPy.round (Airspeed.cas2mach atm v_ias h) 2) cruise_mach
      then v_ias - v_ref
      else v_ias - Airspeed.tas2cas atm (cruise_mach * v_sound) h
    else
      if Rlt_dec (NumPy.round v_ias 0) v_ref
      then v_ias - Airspeed.tas2cas atm (cruise_mach * v_sound) h
      else v_ias - v_ref in
  ((v_error * k_p) * 1) + theta_trim.

End WithAtmosphere.
End PilotControl.

(** ** sim_climb_descent/simulation.py *)

Module Simulation.

(** Unit conversions [pint] applies when the loop combines quantities. *)
Definition kN_to_N (f : R) : R := 1000 * f.
Definition mg_to_g (m : R) : R := m / 1000.
(** mg * m/s^2 to newtons. *)
Definition mg_m_s2_to_N (f : R) : R := f / 1000000.

(** The initial-condition dictionary [ics]. *)
Record Ics : Type := mkIcs {
  ics_x : R; ics_h : R; ics_w : R; ics_v_ias : R
}.

(** The callable passed as [pilot_control_model]. *)
Definition ControlModel : Type :=
  R -> R -> R -> R -> R -> R -> string -> R.

(** *** simulation_euler *)

(** The local variables the [while True] loop carries from one iteration
    to the next. *)
Record State : Type := mkState {
  st_t : R; st_x : R; st_h : R; st_w : R; st_m_f_burnt : R;
  st_v_ias : R; st_v_tas : R; st_mach : R; st_gamma : R
}.

(** The result dictionary [res]: one list per key, appended at the end. *)
Record Res : Type := mkRes {
  res_t : list R; res_x : list R; res_h : list R; res_v_tas : list R;
  res_v_ias : list R; res_mach : list R; res_gamma : list R;
  res_fuel_burn : list R; res_aoa : list R; res_theta : list R
}.

(** What a loop has done after a bounded number of iterations: it has left
    through [break] and the function returned, or it is still iterating. *)
Inductive Outcome (St Rs : Type) : Type :=
| Returned (res : Rs)
| Running (s : St) (res : Rs).
Arguments Returned {St Rs} res.
Arguments Running {St Rs} s res.

(** The [match phase] at the end of the loop body: does it [break]? *)
Definition stop_condition (phase : string) (h : R) : bool :=
  if String.eqb phase "climb" then
    if Rge_dec h 10000 then true else false
  else if String.eqb phase "descent" then
    if Rle_dec h 1000 then true else false
  else false.

Definition thrust_app_perc (phase : string) : R :=
  if String.eqb phase "climb" then 95 / 100 else 5 / 100.

Section WithEnvironment.
Variable atm : Atmosphere.
Variable aero : AeroChar.

Section Euler.
Variable time_step : R.
Variable pilot_control_model : ControlModel.
Variables k_p v_ref cruise_mach : R.
Variable phase : string.
Variable theta_trim : R.

Definition euler_theta (s : State) : R :=
  pilot_control_model k_p theta_trim v_ref (st_v_ias s) (st_h s)
    cruise_mach phase.

Definition euler_aoa (s : State) : R := euler_theta s - st_gamma s.

(** Total thrust of the four engines at the applied percentage, in kN. *)
Definition euler_inst_thrust (s : State) : R :=
  4 * ThrustModel.max_thrust_model atm Const.Max_Thrust_SE_SL Const.BPR
        (st_h s) (st_mach s)
  * thrust_app_perc phase.

(** The fuel flow of the step, in mg/s. *)
Definition euler_fuel_flow (s : State) : R :=
  ThrustModel.fuel_flow atm (kN_to_N (euler_inst_thrust s))
    (st_mach s) (st_h s).

(** [dm], in milligrams. *)
Definition euler_dm (s : State) : R := - euler_fuel_flow s * time_step.

(** One pass through the body of the loop, up to the appends. *)
Definition euler_step (s : State) : State :=
  let dt := time_step in
  let x := st_x s in
  let h := st_h s in
  let w := st_w s in
  let v_tas := st_v_tas s in
  let v_ias := st_v_ias s in
  let mach := st_mach s in
  let gamma := st_gamma s in
  let aoa := euler_aoa s in
  let c_l := 3 / 100 + ((44 / 10) * aoa) in
  let inst_lift := (1 / 2) * c_l * density atm h * Const.S * v_tas ^ 2 in
  let inst_thrust := euler_inst_thrust s in
  let inst_drag := drag aero v_ias h c_l Const.S in
  let dh := v_tas * sin gamma * dt in
  let dv_tas :=
    Eom.inst_dv_dt (kN_to_N inst_thrust) inst_drag w gamma * dt in
  let dgamma := Eom.inst_dgamma_dt inst_lift w v_tas * dt in
  let dm := euler_dm s in
  let dw := dm * Const.Grav_const in
  let dx := v_tas * cos gamma * dt in
  let x := x + dx in
  let h := h + dh in
  let v_tas := v_tas + dv_tas in
  let v_ias := Airspeed.tas2cas atm v_tas h in
  let mach := Airspeed.cas2mach atm v_ias h in
  let gamma := gamma + dgamma in
  let m_f_burnt := st_m_f_burnt s + mg_to_g (NumPy.abs dm) in
  let w := w + mg_m_s2_to_N dw in
  let t := st_t s + dt in
  mkState t x h w m_f_burnt v_ias v_tas mach gamma.

(** The ten appends; [aoa] and [theta] are those computed at the start
    of the step from the state [s] the step began in. *)
Definition euler_append (res : Res) (s s' : State) : Res :=
  mkRes (res_t res ++ [st_t s']) (res_x res ++ [st_x s'])
        (res_h res ++ [st_h s']) (res_v_tas res ++ [st_v_tas s'])
        (res_v_ias res ++ [st_v_ias s']) (res_mach res ++ [st_mach s'])
        (res_gamma res ++ [st_gamma s'])
        (res_fuel_burn res ++ [st_m_f_burnt s'])
        (res_aoa res ++ [euler_aoa s]) (res_theta res ++ [euler_theta s]).

(** The [while True] loop, run for at most [fuel] iterations. *)
Fixpoint euler_loop (fuel : nat) (s : State) (res : Res)
  : Outcome State Res :=
  match fuel with
  | O => Running s res
  | Datatypes.S fuel' =>
      let s' := euler_step s in
      let res' := euler_append res s s' in
      if stop_condition phase (st_h s') then Returned res'
      else euler_loop fuel' s' res'
  end.

(** The state after [n] iterations, whether or not the loop would have
    left earlier. *)
Fixpoint euler_iter (n : nat) (s : State) : State :=
  match n with
  | O => s
  | Datatypes.S n' => euler_iter n' (euler_step s)
  end.

End Euler.

(** Trim state at [t = 0]. *)
Definition euler_init_aoa (ics : Ics) : R :=
  aoa_steady_staight aero (ics_v_ias ics) (ics_h ics) (ics_w ics) Const.S.

Definition euler_init_gamma (ics : Ics) (phase : string) : R :=
  let h := ics_h ics in
  let w := ics_w ics in
  let v_ias := ics_v_ias ics in
  let mach := Airspeed.cas2mach atm v_ias h in
  gamma_steady_straight aero
    (kN_to_N
       (4 * ThrustModel.max_thrust_model atm Const.Max_Thrust_SE_SL
              Const.BPR h mach
        * thrust_app_perc phase))
    (drag aero v_ias h (Aerodynamics.c_l_steady atm v_ias h w Const.S)
       Const.S)
    w.

(** The state variables as initialised before the loop. *)
Definition euler_start (ics : Ics) (phase : string) : State :=
  let h := ics_h ics in
  let v_ias := ics_v_ias ics in
  mkState 0 (ics_x ics) h (ics_w ics) 0 v_ias
    (Airspeed.cas2tas atm v_ias h) (Airspeed.cas2mach atm v_ias h)
    (euler_init_gamma ics phase).

Definition euler_theta_trim (ics : Ics) (phase : string) : R :=
  euler_init_aoa ics + euler_init_gamma ics phase.

Definition euler_init_res (ics : Ics) (phase : string) : Res :=
  let s := euler_start ics phase in
  mkRes [st_t s] [st_x s] [st_h s] [st_v_tas s] [st_v_ias s] [st_mach s]
        [st_gamma s] [st_m_f_burnt s] [euler_init_aoa ics]
        [euler_theta_trim ics phase].

(** [simulation_euler], bounded to [fuel] iterations of its loop. *)
Definition simulation_euler (fuel : nat) (ics : Ics) (time_step : R)
    (pilot_control_model : ControlModel) (k_p v_ref cruise_mach : R)
    (phase : string) : Outcome State Res :=
  euler_loop time_step pilot_control_model k_p v_ref cruise_mach phase
    (euler_theta_trim ics phase) fuel
    (euler_start ics phase) (euler_init_res ics phase).

(** *** simulation_descent_approach_euler *)

Record ApproachState : Type := mkApproachState {
  ap_t : R; ap_x : R; ap_h : R; ap_w : R; ap_m_f_burnt : R;
  ap_v_tas : R; ap_mach : R
}.

Record ApproachRes : Type := mkApproachRes {
  ares_t : list R; ares_x : list R; ares_h : list R;
  ares_v_ias : list R; ares_mach : list R; ares_fuel_burn : list R;
  ares_aoa : list R; ares_theta : list R; ares_thrust : list R
}.

Section Approach.
Variable time_step : R.
Variable gamma : R.        (* -1 * glideslope_angle, in radians *)
Variable screen_h : R.

Definition approach_aoa (s : ApproachState) : R :=
  aoa_steady_staight aero
    (Airspeed.tas2cas atm (ap_v_tas s) (ap_h s)) (ap_h s) (ap_w s)
    Const.S.

(** Thrust solved from the force balance, in newtons. *)
Definition approach_inst_thrust (s : ApproachState) : R :=
  let v_cas := Airspeed.tas2cas atm (ap_v_tas s) (ap_h s) in
  let c_l := Aerodynamics.c_l_steady atm v_cas (ap_h s) (ap_w s) Const.S in
  let inst_drag := drag aero v_cas (ap_h s) c_l Const.S in
  inst_drag + (ap_w s * sin gamma).

Definition approach_fuel_flow (s : ApproachState) : R :=
  ThrustModel.fuel_flow atm (approach_inst_thrust s) (ap_mach s) (ap_h s).

Definition approach_dm (s : ApproachState) : R :=
  - approach_fuel_flow s * time_step.

(** The appends made at the top of the body, before the step. *)
Definition approach_append_controls
    (res : ApproachRes) (s : ApproachState) : ApproachRes :=
  mkApproachRes (ares_t res) (ares_x res) (ares_h res) (ares_v_ias res)
    (ares_mach res) (ares_fuel_burn res)
    (ares_aoa res ++ [approach_aoa s])
    (ares_theta res ++ [approach_aoa s + gamma])
    (ares_thrust res ++ [approach_inst_thrust s]).

Definition approach_step (s : ApproachState) : ApproachState :=
  let dt := time_step in
  let v_tas := ap_v_tas s in
  let dh := v_tas * sin gamma * dt in
  let dx := v_tas * cos gamma * dt in
  let dm := approach_dm s in
  let dw := dm * Const.Grav_const in
  let h := ap_h s + dh in
  let x := ap_x s + dx in
  let m_f_burnt := ap_m_f_burnt s + mg_to_g (NumPy.abs dm) in
  let w := ap_w s + mg_m_s2_to_N dw in
  let t := ap_t s + dt in
  let mach := Airspeed.tas2mach atm v_tas h in
  mkApproachState t x h w m_f_burnt v_tas mach.

(** The appends of the [else] branch, once the new altitude is known to
    be above the screen height. *)
Definition approach_append_state
    (res : ApproachRes) (s' : ApproachState) : ApproachRes :=
  mkApproachRes (ares_t res ++ [ap_t s']) (ares_x res ++ [ap_x s'])
    (ares_h res ++ [ap_h s'])
    (ares_v_ias res
       ++ [Airspeed.tas2cas atm (ap_v_tas s') (ap_h s')])
    (ares_mach res ++ [ap_mach s'])
    (ares_fuel_burn res ++ [ap_m_f_burnt s'])
    (ares_aoa res) (ares_theta res) (ares_thrust res).

Fixpoint approach_loop (fuel : nat) (s : ApproachState)
    (res : ApproachRes) : Outcome ApproachState ApproachRes :=
  match fuel with
  | O => Running s res
  | Datatypes.S fuel' =>
      let res1 := approach_append_controls res s in
      let s' := approach_step s in
      if Rle_dec (ap_h s') screen_h then Returned res1
      else approach_loop fuel' s' (approach_append_state res1 s')
  end.

Fixpoint approach_iter (n : nat) (s : ApproachState) : ApproachState :=
  match n with
  | O => s
  | Datatypes.S n' => approach_iter n' (approach_step s)
  end.

End Approach.

Definition approach_start (ics : Ics) (v_ref : R) : ApproachState :=
  let h := ics_h ics in
  let v_tas := v_ref in
  mkApproachState 0 (ics_x ics) h (ics_w ics) 0 v_tas
    (Airspeed.tas2mach atm v_tas h).

Definition approach_init_res (ics : Ics) (v_ref : R) : ApproachRes :=
  let s := approach_start ics v_ref in
  mkApproachRes [ap_t s] [ap_x s] [ap_h s]
    [Airspeed.tas2cas atm (ap_v_tas s) (ap_h s)] [ap_mach s]
    [ap_m_f_burnt s] [] [] [].

(** [simulation_descent_approach_euler], bounded to [fuel] iterations;
    [glideslope_angle] is the angle in radians.  The [phase] argument only
    names the result file. *)
Definition simulation_descent_approach_euler (fuel : nat) (ics : Ics)
    (time_step v_ref glideslope_angle screen_h : R)
    : Outcome ApproachState ApproachRes :=
  approach_loop time_step (-1 * glideslope_angle) screen_h fuel
    (approach_start ics v_ref) (approach_init_res ics v_ref).

End WithEnvironment.

(** *** load_or_run_simulation

    The function acts on the outside world: it prints, asks the file
    system whether the result file exists, reads it, or calls the
    simulation it was given.  A call is modelled by the result it ends
    with and the list of the actions it performed, in order. *)

Inductive Exception : Type :=
| ValueError (msg : string).

Inductive Action : Type :=
| Print (line : string)
| PathExists (path : string)
| OpenRead (path : string)
| CallSimulation.

(** How a call ends: it returns, it raises, or (when the simulation it
    called loops for ever) it does not end. *)
Inductive Completion (A : Type) : Type :=
| Return (a : A)
| Raise (e : Exception)
| Diverge.
Arguments Return {A} a.
Arguments Raise {A} e.
Arguments Diverge {A}.

Definition str_of_int (z : Z) : string :=
  NilEmpty.string_of_int (Z.to_int z).

Section LoadOrRun.
(** What the simulation returns, and the other keyword arguments. *)
Variables Result Other : Type.

Record Kwargs : Type := mkKwargs {
  kw_phase : string; kw_ics : Ics; kw_v_ref : R; kw_other : Other
}.

(** The file system: the decoded content of the file at a path, if the
    file exists. *)
Variable files : string -> option Result.
(** The callable [simulation]; [None] when the call does not return. *)
Variable simulation : Kwargs -> option Result.

Definition result_file_path (phase : string) (w v_ref : R) : string :=
  ("simulation_results/" ++ phase ++ "_"
    ++ str_of_int (NumPy.rint w) ++ "_"
    ++ str_of_int (NumPy.rint v_ref) ++ "_simulation_result.json")%string.

Definition valid_phases : list string :=
  ["climb"; "descent"; "descent_approach"]%string.

Definition load_or_run_simulation (kwargs : Kwargs)
  : list Action * Completion Result :=
  let phase := kw_phase kwargs in
  let ics := kw_ics kwargs in
  let v_ref := kw_v_ref kwargs in
  if negb (existsb (String.eqb (kw_phase kwargs)) valid_phases) then
    ([], Raise (ValueError
       "Phase must be either 'climb', 'descent', or 'descent_approach'."))
  else
    let file_path := result_file_path phase (ics_w ics) v_ref in
    match files file_path with
    | Some loaded =>
        ([PathExists file_path;
          Print "Simulation results file found";
          OpenRead file_path;
          Print "Simulation results loaded"],
         Return loaded)
    | None =>
        let started :=
          [PathExists file_path;
           Print "No simulation results file found";
           Print ("Running simulation to generate results file for "
                    ++ phase ++ " phase....");
           CallSimulation] in
        match simulation kwargs with
        | Some result =>
            (started ++ [Print "Simulation completed"], Return result)
        | None => (started, Diverge)
        end
    end.

End LoadOrRun.

Arguments mkKwargs {Other} kw_phase kw_ics kw_v_ref kw_other.
Arguments kw_phase {Other} k.
Arguments kw_ics {Other} k.
Arguments kw_v_ref {Other} k.
Arguments kw_other {Other} k.
Arguments load_or_run_simulation {Result Other} files simulation kwargs.

End Simulation.

(** *** serialize_and_write_results_file

    The function is followed through its effect on the file system: the
    file at the path it builds holds the dumped result afterwards.  What
    [load_or_run_simulation] decodes from the dump of [res] is [stored res];
    the JSON encoding itself belongs to the [json] library. *)

Module Serialize.
Section WithContent.
Variables Rs Result : Type.
Variable stored : Rs -> Result.

Definition serialize_and_write_results_file
    (files : string -> option Result) (res : Rs) (w_initial v_ref : R)
    (phase : string) : string -> option Result :=
  let directory := "simulation_results"%string in
  let file_path :=
    (directory ++ "/"
      ++ (phase ++ "_" ++ Simulation.str_of_int (NumPy.rint w_initial) ++ "_"
            ++ Simulation.str_of_int (NumPy.rint v_ref)
            ++ "_simulation_result.json"))%string in
  fun path => if String.eqb path file_path then Some (stored res)
              else files path.

End WithContent.
End Serialize.

(** *** The altitude range of the atmosphere lookup

    [Atmosphere(h)] raises a [ValueError] for an altitude outside the range
    of the [ambiance] library, -5004 m to 81020 m.  Inside the loop of
    [simulation_euler] every lookup of a pass is made at the altitude the
    pass started with, except the [tas2cas] call that follows [h += dh]:
    it is the first to see the new altitude, and it comes before the
    appends.  Before the loop the first lookup is the [cas2tas] call at the
    initial altitude.  The checked run below follows the loop with these
    lookups guarded; [CRaised] is the call ending with the error. *)

Module AltitudeRange.

Definition h_min : R := -5004.
Definition h_max : R := 81020.

Definition in_range (lo hi h : R) : bool :=
  if Rle_dec lo h then (if Rle_dec h hi then true else false) else false.

Inductive Checked (St Rs : Type) : Type :=
| CReturned (res : Rs)
| CRunning (s : St) (res : Rs)
| CRaised.
Arguments CReturned {St Rs} res.
Arguments CRunning {St Rs} s res.
Arguments CRaised {St Rs}.

Definition is_creturned {St Rs : Type} (o : Checked St Rs) : bool :=
  match o with
  | CReturned _ => true
  | _ => false
  end.

Section WithEnvironment.
Variables lo hi : R.
Variable atm : Atmosphere.
Variable aero : AeroChar.

Section Euler.
Variable time_step : R.
Variable pilot_control_model : Simulation.ControlModel.
Variables k_p v_ref cruise_mach : R.
Variable phase : string.
Variable theta_trim : R.

Fixpoint euler_loop_checked (fuel : nat) (s : Simulation.State)
    (res : Simulation.Res) : Checked Simulation.State Simulation.Res :=
  match fuel with
  | O => CRunning s res
  | Datatypes.S fuel' =>
      let s' :=
        Simulation.euler_step atm aero time_step pilot_control_model k_p
          v_ref cruise_mach phase theta_trim s in
      if in_range lo hi (Simulation.st_h s') then
        let res' :=
          Simulation.euler_append pilot_control_model k_p v_ref cruise_mach
            phase theta_trim res s s' in
        if Simulation.stop_condition phase (Simulation.st_h s')
        then CReturned res'
        else euler_loop_checked fuel' s' res'
      else CRaised
  end.

End Euler.

Definition simulation_euler_checked (fuel : nat) (ics : Simulation.Ics)
    (time_step : R) (pilot_control_model : Simulation.ControlModel)
    (k_p v_ref cruise_mach : R) (phase : string)
    : Checked Simulation.State Simulation.Res :=
  if in_range lo hi (Simulation.ics_h ics) then
    euler_loop_checked time_step pilot_control_model k_p v_ref cruise_mach
      phase (Simulation.euler_theta_trim atm aero ics phase) fuel
      (Simulation.euler_start atm aero ics phase)
      (Simulation.euler_init_res atm aero ics phase)
  else CRaised.

End WithEnvironment.
End AltitudeRange.

(** ** Auxiliary definitions for the statements *)

(** The result dictionary of either outcome. *)
Definition outcome_res {St Rs : Type} (o : Simulation.Outcome St Rs) : Rs :=
  match o with
  | Simulation.Returned res => res
  | Simulation.Running _ res => res
  end.

Definition is_returned {St Rs : Type} (o : Simulation.Outcome St Rs) : bool :=
  match o with
  | Simulation.Returned _ => true
  | Simulation.Running _ _ => false
  end.

(** [f 0 + ... + f (n - 1)]. *)
Fixpoint sum_upto (f : nat -> R) (n : nat) : R :=
  match n with
  | O => 0
  | S n' => sum_upto f n' + f n'
  end.

(** The airspeed the pitch law steers to on a Mach segment: the calibrated
    airspeed that corresponds to the cruise Mach number at altitude [h]. *)
Definition cas_of_cruise_mach (atm : Atmosphere) (cruise_mach h : R) : R :=
  Airspeed.tas2cas atm (cruise_mach * speed_of_sound atm h) h.

(** The message of the [ValueError] of [load_or_run_simulation]. *)
Definition invalid_phase_message : string :=
  "Phase must be either 'climb', 'descent', or 'descent_approach'.".

(** The columns of the two result dictionaries.  In the descent approach
    the columns "aoa", "theta" and "thrust" are appended at the top of the
    loop body, the six others after the altitude test. *)
Definition euler_columns (res : Simulation.Res) : list (list R) :=
  [Simulation.res_t res; Simulation.res_x res; Simulation.res_h res;
   Simulation.res_v_tas res; Simulation.res_v_ias res;
   Simulation.res_mach res; Simulation.res_gamma res;
   Simulation.res_fuel_burn res; Simulation.res_aoa res;
   Simulation.res_theta res].

Definition approach_state_columns (res : Simulation.ApproachRes)
  : list (list R) :=
  [Simulation.ares_t res; Simulation.ares_x res; Simulation.ares_h res;
   Simulation.ares_v_ias res; Simulation.ares_mach res;
   Simulation.ares_fuel_burn res].

Definition approach_control_columns (res : Simulation.ApproachRes)
  : list (list R) :=
  [Simulation.ares_aoa res; Simulation.ares_theta res;
   Simulation.ares_thrust res].

(** The last element of a list of magnitudes. *)
Definition last_R (l : list R) : R := last l 0.

Section Traces.
Import Simulation.
Variable atm : Atmosphere.
Variable aero : AeroChar.

(** The result dictionary after [n] unconditional passes of the body of
    the loop of [simulation_euler]. *)
Fixpoint euler_trace (time_step : R) (pcm : ControlModel)
    (k_p v_ref cruise_mach : R) (phase : string) (theta_trim : R)
    (n : nat) (s : State) (res : Res) : Res :=
  match n with
  | O => res
  | S n' =>
      let s' := euler_step atm aero time_step pcm k_p v_ref cruise_mach
                  phase theta_trim s in
      euler_trace time_step pcm k_p v_ref cruise_mach phase theta_trim n' s'
        (euler_append pcm k_p v_ref cruise_mach phase theta_trim res s s')
  end.

End Traces.

(** ** Concrete environments, used to evaluate the model *)

(** A uniform atmosphere holding the sea-level values of the standard
    atmosphere at every altitude; at altitude 0 it is the standard one. *)
Definition atm_sea_level : Atmosphere :=
  mkAtmosphere (fun _ => 1225 / 1000) (fun _ => 101325)
               (fun _ => 28815 / 100) (fun _ => 340294 / 1000).

(** A two-layer atmosphere: the sea-level values up to 1000 m, the standard
    values of 2000 m above. *)
Definition atm_layered : Atmosphere :=
  mkAtmosphere
    (fun h => if Rle_dec h 1000 then 1225 / 1000 else 10065 / 10000)
    (fun h => if Rle_dec h 1000 then 101325 else 79495)
    (fun h => if Rle_dec h 1000 then 28815 / 100 else 27515 / 100)
    (fun h => if Rle_dec h 1000 then 340294 / 1000 else 332529 / 1000).

(** Modelled from the spec: [aerodynamic_char.py] is not part of the
    sources.  Drag follows a parabolic polar on the true airspeed ("standard
    polar D = (1/2) rho S v_tas^2 C_D"), with sample coefficients; the steady
    angle of attack inverts the loop's linear lift model, and the steady
    flight-path angle solves thrust - drag = weight * sin(gamma) for small
    angles. *)
Definition aero_polar (atm : Atmosphere) : AeroChar :=
  mkAeroChar
    (fun v_cas h w S =>
       (Aerodynamics.c_l_steady atm v_cas h w S - 3 / 100) / (44 / 10))
    (fun v_cas h c_l S =>
       (1 / 2) * density atm h * S * (Airspeed.cas2tas atm v_cas h) ^ 2
       * (2 / 100 + (45 / 1000) * c_l ^ 2))
    (fun thrust drag w => (thrust - drag) / w).

(** The same polar with the trim flight-path angle fixed to a 30-degree
    glide, for runs whose first step is evaluated by hand. *)
Definition aero_glide (atm : Atmosphere) : AeroChar :=
  mkAeroChar (aoa_steady_staight (aero_polar atm)) (drag (aero_polar atm))
    (fun _ _ _ => - (PI / 6)).

Definition ics_descent_high_example : Simulation.Ics :=
  Simulation.mkIcs 0 1010 3000000 130.

Definition ics_approach_example : Simulation.Ics :=
  Simulation.mkIcs 0 300 2000000 0.

Definition ics_climb_example : Simulation.Ics :=
  Simulation.mkIcs 0 0 3600000 130.

Definition ics_descent_example : Simulation.Ics :=
  Simulation.mkIcs 0 500 3000000 130.

(** * Properties *)

(** ** Rounding *)

Section RoundingFacts.
Import NumPy.

Lemma Int_part_bounds (x : R) :
  IZR (Int_part x) <= x < IZR (Int_part x) + 1.
Proof.
  destruct (base_Int_part x) as [Hle Hgt]. split; lra.
Qed.

(** The nearest integer is within one half of its argument. *)
Lemma rint_bounds (x : R) : x - 1 / 2 <= IZR (rint x) <= x + 1 / 2.
Proof.
  unfold rint, frac_part.
  pose proof (Int_part_bounds x) as Hb.
  destruct (Rlt_dec (x - IZR (Int_part x)) (1 / 2)) as [Hlo | Hlo].
  - lra.
  - destruct (Rlt_dec (1 / 2) (x - IZR (Int_part x))) as [Hhi | Hhi].
    + rewrite plus_IZR. lra.
    + destruct (Z.even (Int_part x)); [| rewrite plus_IZR]; lra.
Qed.

(** An integer strictly within one half of [x] is the rounding of [x]. *)
Lemma rint_unique (x : R) (z : Z) :
  IZR z - 1 / 2 < x < IZR z + 1 / 2 -> rint x = z.
Proof.
  intros Hz. pose proof (rint_bounds x) as Hr.
  assert (Hlt : IZR (rint x) < IZR z + 1) by lra.
  assert (Hgt : IZR z < IZR (rint x) + 1) by lra.
  rewrite <- plus_IZR in Hlt, Hgt.
  apply lt_IZR in Hlt, Hgt. lia.
Qed.

Lemma rint_IZR (z : Z) : rint (IZR z) = z.
Proof. apply rint_unique. lra. Qed.

Lemma rint_mono (x y : R) : x <= y -> (rint x <= rint y)%Z.
Proof.
  intros Hxy.
  destruct (Z_le_gt_dec (rint x) (rint y)) as [Hle | Hgt]; [exact Hle |].
  exfalso.
  pose proof (rint_bounds x) as Hx. pose proof (rint_bounds y) as Hy.
  assert (Hz : (rint y + 1 <= rint x)%Z) by lia.
  apply IZR_le in Hz. rewrite plus_IZR in Hz.
  assert (Heq : x = y) by lra.
  subst y. lia.
Qed.

Lemma pow10_pos (n : nat) : 0 < 10 ^ n.
Proof. apply pow_lt. lra. Qed.

Lemma round_error (x : R) (n : nat) :
  Rabs (round x n - x) <= / 2 * / 10 ^ n.
Proof.
  unfold round. pose proof (pow10_pos n) as Hp.
  pose proof (rint_bounds (x * 10 ^ n)) as Hr.
  set (p := 10 ^ n) in *. set (z := IZR (rint (x * p))) in *.
  assert (Hinv : 0 < / p) by (apply Rinv_0_lt_compat; exact Hp).
  replace (z / p - x) with ((z - x * p) * / p) by (field; lra).
  rewrite Rabs_mult, (Rabs_pos_eq (/ p)) by lra.
  apply Rmult_le_compat_r; [lra |].
  apply Rabs_le. lra.
Qed.

Lemma Rabs_le_bounds (a b : R) : Rabs a <= b -> - b <= a <= b.
Proof.
  intros Hab. pose proof (Rle_abs a) as H1. pose proof (Rle_abs (- a)) as H2.
  rewrite Rabs_Ropp in H2. lra.
Qed.

Lemma round_mono (x y : R) (n : nat) : x <= y -> round x n <= round y n.
Proof.
  intros Hxy. unfold round. pose proof (pow10_pos n) as Hp.
  apply Rmult_le_compat_r.
  - apply Rlt_le, Rinv_0_lt_compat, Hp.
  - apply IZR_le, rint_mono. apply Rmult_le_compat_r; lra.
Qed.

Lemma round_0 (n : nat) : round 0 n = 0.
Proof.
  unfold round. rewrite Rmult_0_l, rint_IZR. unfold Rdiv. ring.
Qed.

Lemma round_nonneg (x : R) (n : nat) : 0 <= x -> 0 <= round x n.
Proof. intros Hx. rewrite <- (round_0 n). apply round_mono, Hx. Qed.

Lemma round_nonpos (x : R) (n : nat) : x <= 0 -> round x n <= 0.
Proof. intros Hx. rewrite <- (round_0 n). apply round_mono, Hx. Qed.

(** A decimal number with at most [n] decimals is left as it is. *)
Lemma round_decimal (z : Z) (n : nat) :
  round (IZR z / 10 ^ n) n = IZR z / 10 ^ n.
Proof.
  unfold round. pose proof (pow10_pos n) as Hp.
  replace (IZR z / 10 ^ n * 10 ^ n) with (IZR z) by (field; lra).
  now rewrite rint_IZR.
Qed.

Lemma round_IZR (z : Z) (n : nat) : round (IZR z) n = IZR z.
Proof.
  unfold round. pose proof (pow10_pos n) as Hp.
  rewrite (pow_IZR 10 n) in *.
  rewrite <- mult_IZR, rint_IZR, mult_IZR.
  field. lra.
Qed.

(** Rounding keeps a number below [-1] negative. *)
Lemma round_neg (x : R) (n : nat) : x <= -1 -> round x n < 0.
Proof.
  intros Hx.
  apply Rle_lt_trans with (round (-1) n).
  - apply round_mono, Hx.
  - change (-1) with (IZR (-1)). rewrite round_IZR. lra.
Qed.

End RoundingFacts.

(** ** Pilot pitch law *)

Section PilotControlFacts.
Import PilotControl.
Variable atm : Atmosphere.

(** Any phase other than "climb" takes the descent branch. *)
Lemma pilot_pitch_control_not_climb
    (k_p theta_trim v_ref v_ias h cruise_mach : R) (phase : string) :
  phase <> "climb"%string ->
  pilot_pitch_control atm k_p theta_trim v_ref v_ias h cruise_mach phase
  = pilot_pitch_control atm k_p theta_trim v_ref v_ias h cruise_mach
      "descent".
Proof.
  intros Hne. unfold pilot_pitch_control.
  apply String.eqb_neq in Hne. rewrite Hne. reflexivity.
Qed.

End PilotControlFacts.

(** C4.  [pilot_pitch_control] returns [k_p * v_error + theta_trim].  In the
    climb phase the error is taken against [v_ref] while the Mach number,
    rounded to two decimals, is strictly below [cruise_mach], and against the
    calibrated airspeed of the cruise Mach number otherwise; in the descent
    phase it is taken against the calibrated airspeed of the cruise Mach
    number while the airspeed, rounded to an integer, is strictly below
    [v_ref], and against [v_ref] otherwise. *)
Theorem pilot_pitch_control_law
    (atm : Atmosphere) (k_p theta_trim v_ref v_ias h cruise_mach : R) :
  let theta phase :=
    PilotControl.pilot_pitch_control atm k_p theta_trim v_ref v_ias h
      cruise_mach phase in
  let mach2 := NumPy.round (Airspeed.cas2mach atm v_ias h) 2 in
  let v_mach := cas_of_cruise_mach atm cruise_mach h in
  (mach2 < cruise_mach ->
   theta "climb"%string = k_p * (v_ias - v_ref) + theta_trim)
  /\ (~ mach2 < cruise_mach ->
      theta "climb"%string = k_p * (v_ias - v_mach) + theta_trim)
  /\ (NumPy.round v_ias 0 < v_ref ->
      theta "descent"%string = k_p * (v_ias - v_mach) + theta_trim)
  /\ (~ NumPy.round v_ias 0 < v_ref ->
      theta "descent"%string = k_p * (v_ias - v_ref) + theta_trim).
Proof.
  cbv zeta. unfold PilotControl.pilot_pitch_control, cas_of_cruise_mach.
  simpl String.eqb.
  repeat split; intros Hc.
  - destruct (Rlt_dec _ cruise_mach) as [_ | Hn]; [ring | contradiction].
  - destruct (Rlt_dec _ cruise_mach) as [Hy | _]; [contradiction | ring].
  - destruct (Rlt_dec _ v_ref) as [_ | Hn]; [ring | contradiction].
  - destruct (Rlt_dec _ v_ref) as [Hy | _]; [contradiction | ring].
Qed.

(** A descent at 120 m/s against a reference of 130 m/s is on the Mach
    segment. *)
Lemma pilot_pitch_control_law_witness :
  PilotControl.pilot_pitch_control atm_sea_level (1 / 100) (5 / 100) 130 120 0
    (85 / 100) "descent"
  = 1 / 100 * (120 - cas_of_cruise_mach atm_sea_level (85 / 100) 0) + 5 / 100.
Proof.
  apply (pilot_pitch_control_law atm_sea_level (1 / 100) (5 / 100) 130 120 0
           (85 / 100)).
  change 120 with (IZR 120). rewrite round_IZR. lra.
Defined.

(** ** Propulsion model *)

Section ThrustFacts.
Import ThrustModel.
Variable atm : Atmosphere.

Lemma tsfc_nonneg (mach h : R) : -1 <= mach -> 0 <= tsfc atm mach h.
Proof.
  intros Hm. unfold tsfc.
  apply Rmult_le_pos; [| apply sqrt_pos]. lra.
Qed.

Lemma fuel_flow_nonneg (thrust mach h : R) :
  0 <= thrust -> -1 <= mach -> 0 <= fuel_flow atm thrust mach h.
Proof.
  intros Ht Hm. unfold fuel_flow. apply round_nonneg.
  apply Rmult_le_pos; [apply tsfc_nonneg, Hm | exact Ht].
Qed.

(** A negative thrust makes the flow negative. *)
Lemma fuel_flow_neg (thrust mach h : R) :
  tsfc atm mach h * thrust <= -1 -> fuel_flow atm thrust mach h < 0.
Proof. intros H. unfold fuel_flow. apply round_neg, H. Qed.

End ThrustFacts.

(** C6.  [max_thrust_model] is
    [(A - Z * mach * 0.377 * (1 + BPR) / sqrt (G0 * (1 + 0.82 * BPR))
      + (0.23 + 0.19 * sqrt BPR) * X * mach^2) * thrust_sl]
    rounded to four decimals, with [G0 = 0.6375 + 0.0604 * BPR] and the
    polynomials [A], [X], [Z] of the pressure ratio written out below; at
    altitude 0 and Mach 0 with a bypass ratio of 5 the result is
    [thrust_sl * A(1)] rounded to four decimals, where
    [A(1) = -0.4327 + 1.3855 + 0.0472 = 1]: it differs from [thrust_sl] by at
    most half a unit of the fourth decimal, and is exactly the 270 kN of the
    engine constant. *)
Theorem max_thrust_model_sea_level (atm : Atmosphere) (thrust_sl : R) :
  pressure atm 0 <> 0 ->
  let A delta :=
    - (4327 / 10000) * delta ^ 2 + 13855 / 10000 * delta + 472 / 10000 in
  let X delta :=
    9106 / 10000 * delta ^ 3 - 17736 / 10000 * delta ^ 2
    + 18697 / 10000 * delta in
  let Z delta :=
    1377 / 10000 * delta ^ 3 - 4374 / 10000 * delta ^ 2
    + 13003 / 10000 * delta in
  (forall bpr h mach,
      let delta := pressure atm h / pressure atm 0 in
      let g_0 := 6375 / 10000 + 604 / 10000 * bpr in
      ThrustModel.max_thrust_model atm thrust_sl bpr h mach
      = NumPy.round
          ((A delta
            - Z delta * mach * (377 / 1000 * (1 + bpr))
              / sqrt (g_0 * (1 + 82 / 100 * bpr))
            + (23 / 100 + 19 / 100 * sqrt bpr) * X delta * mach ^ 2)
           * thrust_sl) 4)
  /\ (forall delta,
        ThrustModel.coeff_a delta = A delta
        /\ ThrustModel.coeff_x delta = X delta
        /\ ThrustModel.coeff_z delta = Z delta)
  /\ A 1 = 1
  /\ ThrustModel.coeff_a 1 = 1
  /\ ThrustModel.max_thrust_model atm thrust_sl 5 0 0
     = NumPy.round (thrust_sl * A 1) 4
  /\ ThrustModel.max_thrust_model atm thrust_sl 5 0 0
     = NumPy.round (thrust_sl * ThrustModel.coeff_a 1) 4
  /\ Rabs (ThrustModel.max_thrust_model atm thrust_sl 5 0 0
           - thrust_sl * A 1) <= / 2 * / 10 ^ 4
  /\ Rabs (ThrustModel.max_thrust_model atm thrust_sl 5 0 0
           - thrust_sl * ThrustModel.coeff_a 1) <= / 2 * / 10 ^ 4
  /\ ThrustModel.max_thrust_model atm Const.Max_Thrust_SE_SL Const.BPR 0 0
     = Const.Max_Thrust_SE_SL.
Proof.
  intros Hp A X Z.
  assert (Ha : A 1 = 1) by (unfold A; lra).
  assert (Hsl : forall t, ThrustModel.max_thrust_model atm t 5 0 0
                          = NumPy.round (t * A 1) 4).
  { intros t. unfold ThrustModel.max_thrust_model, ThrustModel.coeff_a.
    cbv zeta.
    replace (pressure atm 0 / pressure atm 0) with 1 by (field; exact Hp).
    f_equal. unfold A, Rdiv. ring. }
  split.
  { intros bpr h mach delta g_0.
    unfold ThrustModel.max_thrust_model, ThrustModel.coeff_a,
      ThrustModel.coeff_x, ThrustModel.coeff_z, A, X, Z, delta, g_0.
    cbv zeta. reflexivity. }
  split.
  { intros delta.
    unfold ThrustModel.coeff_a, ThrustModel.coeff_x, ThrustModel.coeff_z,
      A, X, Z.
    repeat split; ring. }
  split; [exact Ha |].
  split; [unfold ThrustModel.coeff_a; lra |].
  split; [apply Hsl |].
  split; [rewrite Hsl; reflexivity |].
  split; [rewrite Hsl; apply round_error |].
  split; [rewrite Hsl; apply round_error |].
  unfold Const.BPR. rewrite Hsl, Ha, Rmult_1_r.
  unfold Const.Max_Thrust_SE_SL. apply (round_IZR 270).
Qed.

(** The sea-level pressure of the standard atmosphere is not zero; the
    270 kN engine at Mach 0.85 and bypass ratio 5 follows the formula. *)
Lemma max_thrust_model_sea_level_witness :
  ThrustModel.max_thrust_model atm_sea_level 270 5 0 (85 / 100)
  = NumPy.round
      ((- (4327 / 10000) * (101325 / 101325) ^ 2
        + 13855 / 10000 * (101325 / 101325) + 472 / 10000
        - (1377 / 10000 * (101325 / 101325) ^ 3
           - 4374 / 10000 * (101325 / 101325) ^ 2
           + 13003 / 10000 * (101325 / 101325))
          * (85 / 100) * (377 / 1000 * (1 + 5))
          / sqrt ((6375 / 10000 + 604 / 10000 * 5) * (1 + 82 / 100 * 5))
        + (23 / 100 + 19 / 100 * sqrt 5)
          * (9106 / 10000 * (101325 / 101325) ^ 3
             - 17736 / 10000 * (101325 / 101325) ^ 2
             + 18697 / 10000 * (101325 / 101325))
          * (85 / 100) ^ 2) * 270) 4.
Proof.
  apply (max_thrust_model_sea_level atm_sea_level 270).
  simpl. lra.
Defined.

(** ** Loading or running a simulation *)

Section LoadOrRunFacts.
Import Simulation.

Lemma valid_phase_check (phase : string) :
  existsb (String.eqb phase) valid_phases = true <-> In phase valid_phases.
Proof.
  rewrite existsb_exists. split.
  - intros [p [Hin Heq]]. apply String.eqb_eq in Heq. now subst p.
  - intros Hin. exists phase. split; [exact Hin | apply String.eqb_refl].
Qed.

End LoadOrRunFacts.

(** C7.  For a phase that is none of "climb", "descent" and
    "descent_approach", [load_or_run_simulation] raises a [ValueError] with
    its message, having performed no action at all: no file-system access
    and no call of the simulation, whatever the files and the simulation
    are. *)
Theorem load_or_run_simulation_invalid_phase
    (Result Other : Type) (files : string -> option Result)
    (simulation : Simulation.Kwargs Other -> option Result)
    (kwargs : Simulation.Kwargs Other) :
  ~ In (Simulation.kw_phase kwargs)
       ["climb"; "descent"; "descent_approach"]%string ->
  Simulation.load_or_run_simulation files simulation kwargs
  = ([], Simulation.Raise (Simulation.ValueError invalid_phase_message)).
Proof.
  intros Hnot. unfold Simulation.load_or_run_simulation.
  destruct (existsb _ Simulation.valid_phases) eqn:Hex.
  - apply valid_phase_check in Hex. contradiction.
  - reflexivity.
Qed.

Lemma load_or_run_simulation_invalid_phase_witness :
  Simulation.load_or_run_simulation (Result := unit) (fun _ => Some tt)
    (fun _ => Some tt)
    (Simulation.mkKwargs "cruise" ics_climb_example 130 tt)
  = ([], Simulation.Raise (Simulation.ValueError invalid_phase_message)).
Proof.
  apply load_or_run_simulation_invalid_phase.
  simpl. intros [H | [H | [H | []]]]; discriminate H.
Defined.

(** ** The loop of [simulation_euler] *)

Section EulerLoopFacts.
Import Simulation.
Variable atm : Atmosphere.
Variable aero : AeroChar.
Variable time_step : R.
Variable pcm : ControlModel.
Variables k_p v_ref cruise_mach : R.
Variable phase : string.
Variable theta_trim : R.

Local Abbreviation step :=
  (euler_step atm aero time_step pcm k_p v_ref cruise_mach phase theta_trim).
Local Abbreviation iter :=
  (euler_iter atm aero time_step pcm k_p v_ref cruise_mach phase theta_trim).
Local Abbreviation loop :=
  (euler_loop atm aero time_step pcm k_p v_ref cruise_mach phase theta_trim).
Local Abbreviation trace :=
  (euler_trace atm aero time_step pcm k_p v_ref cruise_mach phase
     theta_trim).
Local Abbreviation append :=
  (euler_append pcm k_p v_ref cruise_mach phase theta_trim).
Local Abbreviation flow := (euler_fuel_flow atm phase).

Lemma euler_iter_S (n : nat) (s : State) :
  iter (S n) s = step (iter n s).
Proof.
  revert s. induction n as [| n IH]; intros s; [reflexivity |].
  simpl. simpl in IH. now rewrite IH.
Qed.

Lemma euler_loop_S (fuel : nat) (s : State) (res : Res) :
  loop (S fuel) s res
  = if stop_condition phase (st_h (step s))
    then Returned (append res s (step s))
    else loop fuel (step s) (append res s (step s)).
Proof. reflexivity. Qed.

Lemma euler_iter_S_l (n : nat) (s : State) :
  iter (S n) s = iter n (step s).
Proof. reflexivity. Qed.

Lemma euler_trace_S (n : nat) (s : State) (res : Res) :
  trace (S n) s res = trace n (step s) (append res s (step s)).
Proof. reflexivity. Qed.

(** While no pass has met the stop condition the loop has done exactly
    [fuel] passes. *)
Lemma euler_loop_running (fuel : nat) (s : State) (res : Res) :
  (forall k, (k < fuel)%nat ->
             stop_condition phase (st_h (iter (S k) s)) = false) ->
  loop fuel s res = Running (iter fuel s) (trace fuel s res).
Proof.
  revert s res. induction fuel as [| fuel IH]; intros s res Hno.
  - reflexivity.
  - rewrite euler_loop_S, euler_iter_S_l, euler_trace_S.
    pose proof (Hno 0%nat ltac:(lia)) as H0.
    change (iter 1 s) with (step s) in H0. rewrite H0. apply IH.
    intros k Hk. apply (Hno (S k)). lia.
Qed.

(** The loop returns at the first pass that meets the stop condition. *)
Lemma euler_loop_returns (n fuel : nat) (s : State) (res : Res) :
  (n < fuel)%nat ->
  stop_condition phase (st_h (iter (S n) s)) = true ->
  (forall k, (k < n)%nat ->
             stop_condition phase (st_h (iter (S k) s)) = false) ->
  loop fuel s res = Returned (trace (S n) s res).
Proof.
  revert fuel s res. induction n as [| n IH]; intros fuel s res Hlt Hstop Hno;
    (destruct fuel as [| fuel]; [lia |]); rewrite euler_loop_S.
  - change (iter 1 s) with (step s) in Hstop. now rewrite Hstop.
  - pose proof (Hno 0%nat ltac:(lia)) as H0.
    change (iter 1 s) with (step s) in H0. rewrite H0.
    rewrite (IH fuel (step s)); [reflexivity | lia | exact Hstop |].
    intros k Hk. apply (Hno (S k)). lia.
Qed.

(** Conversely, a returned result is the trace up to the first pass that
    met the stop condition. *)
Lemma euler_loop_returned_inv (fuel : nat) (s : State) (res res' : Res) :
  loop fuel s res = Returned res' ->
  exists n, (n < fuel)%nat
            /\ stop_condition phase (st_h (iter (S n) s)) = true
            /\ (forall k, (k < n)%nat ->
                  stop_condition phase (st_h (iter (S k) s)) = false)
            /\ res' = trace (S n) s res.
Proof.
  revert s res. induction fuel as [| fuel IH]; intros s res Hret.
  - discriminate Hret.
  - rewrite euler_loop_S in Hret.
    destruct (stop_condition phase (st_h (step s))) eqn:Hstop.
    + exists 0%nat. inversion Hret; subst res'.
      repeat split; [lia | exact Hstop | intros k Hk; lia].
    + apply IH in Hret. destruct Hret as [n [Hlt [Hs [Hno Hres]]]].
      exists (S n). repeat split; [lia | exact Hs | | exact Hres].
      intros [| k] Hk; [exact Hstop | apply Hno; lia].
Qed.

(** A stop condition met at some pass makes the loop return. *)
Lemma euler_loop_returns_some (n fuel : nat) (s : State) (res : Res) :
  (n < fuel)%nat ->
  stop_condition phase (st_h (iter (S n) s)) = true ->
  is_returned (loop fuel s res) = true.
Proof.
  revert fuel s res. induction n as [| n IH]; intros fuel s res Hlt Hstop;
    (destruct fuel as [| fuel]; [lia |]); rewrite euler_loop_S;
    destruct (stop_condition phase (st_h (step s))) eqn:H1;
    try reflexivity.
  - change (iter 1 s) with (step s) in Hstop. congruence.
  - apply IH; [lia | exact Hstop].
Qed.

(** Whatever the outcome, the result is a trace of at most [fuel]
    passes. *)
Lemma euler_loop_res (fuel : nat) (s : State) (res : Res) :
  exists n, (n <= fuel)%nat /\ outcome_res (loop fuel s res) = trace n s res.
Proof.
  revert s res. induction fuel as [| fuel IH]; intros s res.
  - exists 0%nat. split; [lia | reflexivity].
  - rewrite euler_loop_S. destruct (stop_condition phase (st_h (step s))).
    + exists 1%nat. split; [lia | reflexivity].
    + destruct (IH (step s) (append res s (step s))) as [n [Hn Hres]].
      exists (S n). split; [lia | exact Hres].
Qed.

(** A key of the dictionary that a pass extends by a function of the new
    state holds, after [n] passes, that function of the states reached. *)
Lemma euler_trace_field (q : Res -> list R) (p : State -> R) :
  (forall res s s', q (append res s s') = q res ++ [p s']) ->
  forall n s res,
    q (trace n s res)
    = q res ++ map (fun k => p (iter (S k) s)) (seq 0 n).
Proof.
  intros Hq. induction n as [| n IH]; intros s res.
  - simpl. now rewrite app_nil_r.
  - rewrite euler_trace_S, IH, Hq, <- app_assoc. f_equal.
    change (seq 0 (S n)) with (0%nat :: seq 1 n).
    rewrite <- seq_shift, map_cons, map_map. reflexivity.
Qed.

Lemma euler_trace_h (n : nat) (s : State) (res : Res) :
  res_h (trace n s res)
  = res_h res ++ map (fun k => st_h (iter (S k) s)) (seq 0 n).
Proof. now apply euler_trace_field. Qed.

Lemma euler_trace_fuel_burn (n : nat) (s : State) (res : Res) :
  res_fuel_burn (trace n s res)
  = res_fuel_burn res
    ++ map (fun k => st_m_f_burnt (iter (S k) s)) (seq 0 n).
Proof. now apply euler_trace_field. Qed.

Lemma last_map_seq (f : nat -> R) (l : list R) (n : nat) :
  last_R (l ++ map f (seq 0 (S n))) = f n.
Proof.
  unfold last_R. rewrite seq_S, map_app, app_assoc. simpl.
  apply last_last.
Qed.

(** *** Fuel and weight of one pass *)

Lemma euler_step_fuel (s : State) :
  st_m_f_burnt (step s)
  = st_m_f_burnt s + mg_to_g (Rabs (flow s * time_step)).
Proof.
  unfold euler_step, euler_dm, NumPy.abs. simpl. f_equal. f_equal.
  rewrite <- Rabs_Ropp. f_equal. ring.
Qed.

Lemma euler_step_weight (s : State) :
  st_w (step s)
  = st_w s
    + mg_m_s2_to_N ((- flow s * time_step) * Const.Grav_const).
Proof. reflexivity. Qed.

Lemma euler_iter_fuel (n : nat) (s : State) :
  st_m_f_burnt (iter n s)
  = st_m_f_burnt s
    + sum_upto (fun i => mg_to_g (Rabs (flow (iter i s) * time_step))) n.
Proof.
  induction n as [| n IH].
  - simpl. ring.
  - rewrite euler_iter_S, euler_step_fuel, IH. simpl. ring.
Qed.

Lemma euler_step_h (s : State) :
  st_h (step s) = st_h s + st_v_tas s * sin (st_gamma s) * time_step.
Proof. reflexivity. Qed.

(** With a time step of zero a pass leaves the altitude where it is. *)
Lemma euler_iter_h_frozen (n : nat) (s : State) :
  time_step = 0 -> st_h (iter n s) = st_h s.
Proof.
  intros Hdt. induction n as [| n IH]; [reflexivity |].
  rewrite euler_iter_S, <- IH. set (s' := iter n s).
  unfold euler_step. simpl. rewrite Hdt. ring.
Qed.

End EulerLoopFacts.

(** ** Airspeed conversions *)

Section PowerFacts.

Lemma Rpower_base_1 (a : R) : Rpower 1 a = 1.
Proof. unfold Rpower. now rewrite ln_1, Rmult_0_r, exp_0. Qed.

Lemma Rpower_ge_1 (x a : R) : 1 <= x -> 0 <= a -> 1 <= Rpower x a.
Proof.
  intros Hx Ha. rewrite <- (Rpower_base_1 a).
  apply Rle_Rpower_l; [exact Ha | lra].
Qed.

Lemma Rpower_root (x a : R) :
  0 < x -> a <> 0 -> Rpower (Rpower x a) (1 / a) = x.
Proof.
  intros Hx Ha. rewrite Rpower_mult.
  replace (a * (1 / a)) with 1 by (field; exact Ha).
  apply Rpower_1, Hx.
Qed.

Lemma Rpower_root_inv (x a : R) :
  0 < x -> a <> 0 -> Rpower (Rpower x (1 / a)) a = x.
Proof.
  intros Hx Ha. rewrite Rpower_mult.
  replace (1 / a * a) with 1 by (field; exact Ha).
  apply Rpower_1, Hx.
Qed.

End PowerFacts.

Section AirspeedFacts.
Import Airspeed.
Variable atm : Atmosphere.
Variable h : R.
Hypothesis rho_sl_pos : 0 < density atm 0.
Hypothesis p_sl_pos : 0 < pressure atm 0.
Hypothesis rho_h_pos : 0 < density atm h.
Hypothesis p_h_pos : 0 < pressure atm h.

Lemma g_r_value : gamma_air / (gamma_air - 1) = 7 / 2.
Proof. unfold gamma_air. field. Qed.

(** The unrounded true airspeed, squared. *)
Lemma cas2tas_exact_sqr (v : R) :
  let p1 := 1 + / 7 * (density atm 0 / pressure atm 0) * v ^ 2 in
  let p3 :=
    Rpower (1 + pressure atm 0 / pressure atm h * (Rpower p1 (7 / 2) - 1))
           (1 / (7 / 2)) in
  1 <= p1 /\ 1 <= p3
  /\ cas2tas_with atm (fun y => y) v h
     = sqrt (7 * (pressure atm h / density atm h) * (p3 - 1))
  /\ cas2tas_with atm (fun y => y) v h ^ 2
     = 7 * (pressure atm h / density atm h) * (p3 - 1).
Proof.
  intros p1 p3.
  assert (Hr0 : 0 < density atm 0 / pressure atm 0)
    by (apply Rdiv_lt_0_compat; assumption).
  assert (Hrh : 0 < pressure atm h / density atm h)
    by (apply Rdiv_lt_0_compat; assumption).
  assert (Hd : 0 < pressure atm 0 / pressure atm h)
    by (apply Rdiv_lt_0_compat; assumption).
  assert (Hp1 : 1 <= p1).
  { unfold p1. pose proof (pow2_ge_0 v). nra. }
  assert (Hp2 : 1 <= Rpower p1 (7 / 2)) by (apply Rpower_ge_1; lra).
  assert (Hp3 : 1 <= p3).
  { unfold p3. apply Rpower_ge_1; [nra | lra]. }
  assert (Heq : cas2tas_with atm (fun y => y) v h
                = sqrt (7 * (pressure atm h / density atm h) * (p3 - 1))).
  { unfold cas2tas_with, NumPy.power. cbv zeta. rewrite g_r_value.
    unfold p3, p1. replace (2 * (7 / 2)) with 7 by field.
    reflexivity. }
  repeat split; [exact Hp1 | exact Hp3 | exact Heq |].
  rewrite Heq. apply pow2_sqrt. nra.
Qed.

(** Without the roundings [tas2cas] undoes [cas2tas]. *)
Lemma tas2cas_cas2tas_exact (v : R) :
  0 <= v ->
  tas2cas_with atm (fun y => y) (cas2tas_with atm (fun y => y) v h) h = v.
Proof.
  intros Hv.
  destruct (cas2tas_exact_sqr v) as [Hp1 [Hp3 [_ Hsq]]].
  cbv zeta in Hp1, Hp3, Hsq.
  set (p1 := 1 + / 7 * (density atm 0 / pressure atm 0) * v ^ 2) in *.
  set (A := 1 + pressure atm 0 / pressure atm h * (Rpower p1 (7 / 2) - 1))
    in *.
  assert (Hp2 : 1 <= Rpower p1 (7 / 2)) by (apply Rpower_ge_1; lra).
  assert (Hd : 0 < pressure atm 0 / pressure atm h)
    by (apply Rdiv_lt_0_compat; assumption).
  assert (HA : 1 <= A) by (unfold A; nra).
  unfold tas2cas_with, NumPy.power. cbv zeta. rewrite g_r_value, Hsq.
  replace (1 + / (2 * (7 / 2)) * (density atm h / pressure atm h)
               * (7 * (pressure atm h / density atm h)
                  * (Rpower A (1 / (7 / 2)) - 1)))
    with (Rpower A (1 / (7 / 2))) by (field; split; lra).
  rewrite Rpower_root_inv by lra.
  replace (pressure atm h / pressure atm 0 * (A - 1) + 1)
    with (Rpower p1 (7 / 2)) by (unfold A; field; split; lra).
  rewrite Rpower_root by lra.
  replace (2 * (7 / 2) * (pressure atm 0 / density atm 0) * (p1 - 1))
    with (v ^ 2) by (unfold p1; field; split; lra).
  apply sqrt_pow2, Hv.
Qed.

(** The unrounded [tas2cas] grows with the true airspeed. *)
Lemma tas2cas_exact_mono (y1 y2 : R) :
  0 <= y1 <= y2 ->
  tas2cas_with atm (fun y => y) y1 h <= tas2cas_with atm (fun y => y) y2 h.
Proof.
  intros Hy.
  assert (Hrh : 0 < density atm h / pressure atm h)
    by (apply Rdiv_lt_0_compat; assumption).
  assert (Hr0 : 0 < pressure atm 0 / density atm 0)
    by (apply Rdiv_lt_0_compat; assumption).
  assert (Hd : 0 < pressure atm h / pressure atm 0)
    by (apply Rdiv_lt_0_compat; assumption).
  assert (Hsq : y1 ^ 2 <= y2 ^ 2) by nra.
  unfold tas2cas_with, NumPy.power. cbv zeta. rewrite g_r_value.
  set (q y := 1 + / (2 * (7 / 2)) * (density atm h / pressure atm h) * y ^ 2).
  assert (Hq1 : 1 <= q y1) by (unfold q; pose proof (pow2_ge_0 y1); nra).
  assert (Hq12 : q y1 <= q y2) by (unfold q; nra).
  assert (Hpw : Rpower (q y1) (7 / 2) <= Rpower (q y2) (7 / 2))
    by (apply Rle_Rpower_l; lra).
  assert (Hpw1 : 1 <= Rpower (q y1) (7 / 2))
    by (apply Rpower_ge_1; lra).
  set (B y := pressure atm h / pressure atm 0 * (Rpower (q y) (7 / 2) - 1) + 1).
  assert (HB1 : 1 <= B y1) by (unfold B; nra).
  assert (HB12 : B y1 <= B y2) by (unfold B; nra).
  assert (Hrt : Rpower (B y1) (1 / (7 / 2)) <= Rpower (B y2) (1 / (7 / 2)))
    by (apply Rle_Rpower_l; lra).
  apply sqrt_le_1_alt. fold (q y1) (q y2) (B y1) (B y2). nra.
Qed.

Lemma tas2cas_exact_nonneg (y : R) :
  0 <= tas2cas_with atm (fun y => y) y h.
Proof. unfold tas2cas_with. apply sqrt_pos. Qed.

End AirspeedFacts.

Section SeaLevelFacts.
Import Airspeed.
Variable atm : Atmosphere.
Hypothesis rho_sl_pos : 0 < density atm 0.
Hypothesis p_sl_pos : 0 < pressure atm 0.

(** At sea level the calibrated and the true airspeed coincide. *)
Lemma cas2tas_exact_sea_level (v : R) :
  0 <= v -> cas2tas_with atm (fun y => y) v 0 = v.
Proof.
  intros Hv.
  assert (Hr0 : 0 < density atm 0 / pressure atm 0)
    by (apply Rdiv_lt_0_compat; assumption).
  unfold cas2tas_with, NumPy.power. cbv zeta. rewrite g_r_value.
  set (p1 := 1 + / (2 * (7 / 2)) * (density atm 0 / pressure atm 0) * v ^ 2).
  assert (Hp1 : 1 <= p1) by (unfold p1; pose proof (pow2_ge_0 v); nra).
  replace (1 + pressure atm 0 / pressure atm 0 * (Rpower p1 (7 / 2) - 1))
    with (Rpower p1 (7 / 2)) by (field; lra).
  rewrite Rpower_root by lra.
  replace (2 * (7 / 2) * (pressure atm 0 / density atm 0) * (p1 - 1))
    with (v ^ 2) by (unfold p1; field; split; lra).
  apply sqrt_pow2, Hv.
Qed.

Lemma tas2cas_exact_sea_level (v : R) :
  0 <= v -> tas2cas_with atm (fun y => y) v 0 = v.
Proof.
  intros Hv.
  assert (Hr0 : 0 < density atm 0 / pressure atm 0)
    by (apply Rdiv_lt_0_compat; assumption).
  unfold tas2cas_with, NumPy.power. cbv zeta. rewrite g_r_value.
  set (p1 := 1 + / (2 * (7 / 2)) * (density atm 0 / pressure atm 0) * v ^ 2).
  assert (Hp1 : 1 <= p1) by (unfold p1; pose proof (pow2_ge_0 v); nra).
  replace (pressure atm 0 / pressure atm 0 * (Rpower p1 (7 / 2) - 1) + 1)
    with (Rpower p1 (7 / 2)) by (field; lra).
  rewrite Rpower_root by lra.
  replace (2 * (7 / 2) * (pressure atm 0 / density atm 0) * (p1 - 1))
    with (v ^ 2) by (unfold p1; field; split; lra).
  apply sqrt_pow2, Hv.
Qed.

End SeaLevelFacts.

(** In the uniform sea-level atmosphere every altitude is sea level. *)
Lemma cas2tas_uniform (z : Z) (h : R) :
  (0 <= z)%Z -> Airspeed.cas2tas atm_sea_level (IZR z) h = IZR z.
Proof.
  intros Hz.
  change (Airspeed.cas2tas atm_sea_level (IZR z) h)
    with (NumPy.round
            (Airspeed.cas2tas_with atm_sea_level (fun y => y) (IZR z) 0) 2).
  rewrite cas2tas_exact_sea_level; [apply round_IZR | | |];
    try (simpl; lra).
  now apply IZR_le.
Qed.

Lemma tas2cas_uniform (z : Z) (h : R) :
  (0 <= z)%Z -> Airspeed.tas2cas atm_sea_level (IZR z) h = IZR z.
Proof.
  intros Hz.
  change (Airspeed.tas2cas atm_sea_level (IZR z) h)
    with (NumPy.round
            (Airspeed.tas2cas_with atm_sea_level (fun y => y) (IZR z) 0) 2).
  rewrite tas2cas_exact_sea_level; [apply round_IZR | | |];
    try (simpl; lra).
  now apply IZR_le.
Qed.

(** ** How far [tas2cas] can move: Bernoulli's inequality and a bound on
       the slope of the exact conversion *)

Section BernoulliFacts.

Lemma ln_below_line (w : R) : 0 < w -> ln w <= w - 1.
Proof.
  intros Hw. pose proof (exp_ineq1_le (ln w)) as H.
  rewrite exp_ln in H by exact Hw. lra.
Qed.

Lemma exp_le_compat (x y : R) : x <= y -> exp x <= exp y.
Proof.
  intros [Hlt | ->]; [apply Rlt_le, exp_increasing, Hlt | apply Rle_refl].
Qed.

(** Bernoulli's inequality for an exponent between 0 and 1 ... *)
Lemma Rpower_bernoulli_concave (x alpha : R) :
  0 < x -> 0 <= alpha <= 1 -> Rpower x alpha <= 1 + alpha * (x - 1).
Proof.
  intros Hx Ha.
  set (m := 1 + alpha * (x - 1)).
  assert (Hm : 0 < m) by (unfold m; nra).
  assert (Hxm : 0 < x / m) by (apply Rdiv_lt_0_compat; assumption).
  assert (Him : 0 < / m) by (apply Rinv_0_lt_compat, Hm).
  pose proof (ln_below_line (x / m) Hxm) as H1.
  pose proof (ln_below_line (/ m) Him) as H2.
  assert (Hlnx : ln x = ln (x / m) + ln m).
  { rewrite <- ln_mult by assumption. f_equal. field. lra. }
  rewrite ln_Rinv in H2 by exact Hm.
  assert (Hsum : alpha * (x / m - 1) + (1 - alpha) * (/ m - 1) = 0).
  { unfold m. field. fold m. lra. }
  assert (Hle : alpha * ln x <= ln m).
  { rewrite Hlnx.
    assert (alpha * ln (x / m) <= alpha * (x / m - 1))
      by (apply Rmult_le_compat_l; lra).
    assert ((1 - alpha) * - ln m <= (1 - alpha) * (/ m - 1))
      by (apply Rmult_le_compat_l; lra).
    lra. }
  unfold Rpower. apply exp_le_compat in Hle.
  rewrite exp_ln in Hle by exact Hm. exact Hle.
Qed.

(** ... and for an exponent of at least 1. *)
Lemma Rpower_bernoulli_convex (x r : R) :
  0 < x -> 1 <= r -> 1 + r * (x - 1) <= Rpower x r.
Proof.
  intros Hx Hr.
  set (c := 1 + r * (x - 1)).
  destruct (Rle_dec c 0) as [Hc | Hc].
  - apply Rle_trans with 0; [exact Hc |]. unfold Rpower. apply Rlt_le, exp_pos.
  - assert (Hcpos : 0 < c) by lra.
    assert (Hroot : Rpower c (1 / r) <= x).
    { apply Rle_trans with (1 + 1 / r * (c - 1)).
      - apply Rpower_bernoulli_concave; [exact Hcpos |].
        split.
        + apply Rlt_le, Rdiv_lt_0_compat; lra.
        + apply Rmult_le_reg_r with r; [lra |].
          unfold Rdiv. rewrite Rmult_assoc, Rinv_l by lra. lra.
      - unfold c. right. field. lra. }
    apply Rle_trans with (Rpower (Rpower c (1 / r)) r).
    + right. symmetry. apply Rpower_root_inv; lra.
    + apply Rle_Rpower_l; [lra |]. split; [| exact Hroot].
      unfold Rpower. apply exp_pos.
Qed.

(** The tangent of a convex power lies below it, and that of a concave
    power above it. *)
Lemma Rpower_tangent_convex (m w r : R) :
  0 < m -> 0 < w -> 1 <= r ->
  Rpower m r * (1 + r * (w / m - 1)) <= Rpower w r.
Proof.
  intros Hm Hw Hr.
  assert (Hwm : 0 < w / m) by (apply Rdiv_lt_0_compat; assumption).
  replace (Rpower w r) with (Rpower m r * Rpower (w / m) r).
  - apply Rmult_le_compat_l; [unfold Rpower; apply Rlt_le, exp_pos |].
    apply Rpower_bernoulli_convex; assumption.
  - rewrite Rpower_mult_distr by assumption. f_equal. field. lra.
Qed.

Lemma Rpower_tangent_concave (m w alpha : R) :
  0 < m -> 0 < w -> 0 <= alpha <= 1 ->
  Rpower w alpha <= Rpower m alpha * (1 + alpha * (w / m - 1)).
Proof.
  intros Hm Hw Ha.
  assert (Hwm : 0 < w / m) by (apply Rdiv_lt_0_compat; assumption).
  replace (Rpower w alpha) with (Rpower m alpha * Rpower (w / m) alpha).
  - apply Rmult_le_compat_l; [unfold Rpower; apply Rlt_le, exp_pos |].
    apply Rpower_bernoulli_concave; assumption.
  - rewrite Rpower_mult_distr by assumption. f_equal. field. lra.
Qed.

Lemma Rpower_pos (x y : R) : 0 < Rpower x y.
Proof. unfold Rpower. apply exp_pos. Qed.

(** One factor of a seven-halves power. *)
Lemma Rpower_seven_halves (x : R) :
  0 < x -> Rpower x (7 / 2) = Rpower x (5 / 2) * x.
Proof.
  intros Hx. replace (7 / 2) with (5 / 2 + 1) by lra.
  now rewrite Rpower_plus, Rpower_1.
Qed.

Lemma Rpower_five_halves (x : R) :
  0 < x -> Rpower x (5 / 2) = x ^ 2 * sqrt x.
Proof.
  intros Hx. replace (5 / 2) with (INR 2 + / 2) by (simpl; lra).
  now rewrite Rpower_plus, Rpower_pow, Rpower_sqrt.
Qed.

End BernoulliFacts.

Section SlopeFacts.
Import Airspeed.
Variable atm : Atmosphere.
Variable h : R.
Hypothesis rho_sl_pos : 0 < density atm 0.
Hypothesis p_sl_pos : 0 < pressure atm 0.
Hypothesis rho_h_pos : 0 < density atm h.
Hypothesis p_h_pos : 0 < pressure atm h.

Local Abbreviation exact_cas := (tas2cas_with atm (fun v => v)).
Local Abbreviation q y :=
  (1 + / 7 * (density atm h / pressure atm h) * y ^ 2).
Local Abbreviation B y :=
  (pressure atm h / pressure atm 0 * (Rpower (q y) (7 / 2) - 1) + 1).
Local Abbreviation u y := (Rpower (B y) (1 / (7 / 2))).
Local Abbreviation sigma := (density atm h / density atm 0).
Local Abbreviation delta := (pressure atm h / pressure atm 0).

Lemma ratios_pos :
  0 < density atm h / pressure atm h /\ 0 < delta
  /\ 0 < pressure atm 0 / density atm 0 /\ 0 < sigma.
Proof. repeat split; apply Rdiv_lt_0_compat; assumption. Qed.

(** The unrounded calibrated airspeed, squared. *)
Lemma tas2cas_exact_sqr (y : R) :
  1 <= q y /\ 1 <= Rpower (q y) (7 / 2) /\ 1 <= B y /\ 1 <= u y
  /\ exact_cas y h ^ 2 = 7 * (pressure atm 0 / density atm 0) * (u y - 1).
Proof.
  destruct ratios_pos as [Ha [Hd [Hc Hs]]].
  assert (Hq : 1 <= q y) by (pose proof (pow2_ge_0 y); nra).
  assert (HQ : 1 <= Rpower (q y) (7 / 2)) by (apply Rpower_ge_1; lra).
  assert (HB : 1 <= B y) by nra.
  assert (Hu : 1 <= u y) by (apply Rpower_ge_1; lra).
  repeat split; try assumption.
  unfold tas2cas_with, NumPy.power. cbv zeta. rewrite g_r_value.
  replace (2 * (7 / 2)) with 7 by field.
  apply pow2_sqrt. nra.
Qed.

(** Step 1: the squares of the exact calibrated airspeeds grow at most
    [sigma * q^(5/2)] times as fast as the squares of the true airspeeds. *)
Lemma tas2cas_exact_sqr_increment (y1 y2 : R) :
  0 <= y1 <= y2 ->
  exact_cas y2 h ^ 2 - exact_cas y1 h ^ 2
  <= sigma * Rpower (q y2) (5 / 2) * (y2 ^ 2 - y1 ^ 2).
Proof.
  intros Hy.
  destruct ratios_pos as [Ha [Hd [Hc Hs]]].
  destruct (tas2cas_exact_sqr y1) as [Hq1 [HQ1 [HB1 [Hu1 Hg1]]]].
  destruct (tas2cas_exact_sqr y2) as [Hq2 [HQ2 [HB2 [Hu2 Hg2]]]].
  rewrite Hg1, Hg2.
  assert (Hsq : y1 ^ 2 <= y2 ^ 2) by nra.
  assert (Hq12 : q y1 <= q y2) by nra.
  assert (Hqy : q y2 - q y1
                = / 7 * (density atm h / pressure atm h) * (y2 ^ 2 - y1 ^ 2))
    by ring.
  set (q1 := q y1) in *. set (q2 := q y2) in *.
  set (Q1 := Rpower q1 (7 / 2)) in *. set (Q2 := Rpower q2 (7 / 2)) in *.
  set (B1 := delta * (Q1 - 1) + 1) in *. set (B2 := delta * (Q2 - 1) + 1) in *.
  set (u1 := Rpower B1 (1 / (7 / 2))) in *.
  set (u2 := Rpower B2 (1 / (7 / 2))) in *.
  set (P2 := Rpower q2 (5 / 2)).
  assert (HP2 : 0 < P2) by apply Rpower_pos.
  (* the seven-halves powers *)
  assert (HQ : Q2 - Q1 <= 7 / 2 * P2 * (q2 - q1)).
  { pose proof (Rpower_tangent_convex q2 q1 (7 / 2)
                  ltac:(lra) ltac:(lra) ltac:(lra)) as Ht.
    fold Q1 in Ht. unfold Q2.
    rewrite (Rpower_seven_halves q2) in Ht |- * by lra. fold P2 in Ht |- *.
    replace (P2 * q2 * (1 + 7 / 2 * (q1 / q2 - 1)))
      with (P2 * q2 - 7 / 2 * P2 * (q2 - q1)) in Ht by (field; lra).
    lra. }
  assert (HQ12 : Q1 <= Q2) by (apply Rle_Rpower_l; lra).
  assert (HB12 : B1 <= B2) by (unfold B1, B2; nra).
  (* the two-sevenths powers *)
  assert (Hu : u2 - u1 <= 2 / 7 * (B2 - B1)).
  { pose proof (Rpower_tangent_concave B1 B2 (1 / (7 / 2))
                  ltac:(lra) ltac:(lra) ltac:(lra)) as Ht.
    fold u1 u2 in Ht.
    assert (Hroot : u1 <= B1).
    { unfold u1. rewrite <- (Rpower_1 B1) at 2 by lra.
      apply Rle_Rpower; lra. }
    replace (u1 * (1 + 1 / (7 / 2) * (B2 / B1 - 1)))
      with (u1 + 2 / 7 * (u1 / B1) * (B2 - B1)) in Ht
      by (field; lra).
    assert (Hratio : u1 / B1 <= 1).
    { apply Rmult_le_reg_r with B1; [lra |].
      unfold Rdiv. rewrite Rmult_assoc, Rinv_l by lra. lra. }
    assert (0 < u1 / B1) by (apply Rdiv_lt_0_compat; lra).
    nra. }
  assert (HBq : B2 - B1 <= delta * (7 / 2 * P2 * (q2 - q1)))
    by (unfold B1, B2; nra).
  rewrite Hqy in HBq.
  set (a := density atm h / pressure atm h) in *.
  set (c0 := pressure atm 0 / density atm 0) in *.
  set (d := delta) in *.
  assert (Hsig : sigma = c0 * d * a)
    by (unfold c0, d, a; field; repeat split; lra).
  rewrite Hsig.
  set (D := y2 ^ 2 - y1 ^ 2) in *.
  assert (HD : 0 <= D) by (unfold D; lra).
  assert (Hchain : u2 - u1 <= d * P2 * (/ 7 * a * D)) by lra.
  replace (7 * c0 * (u2 - 1) - 7 * c0 * (u1 - 1))
    with (7 * c0 * (u2 - u1)) by ring.
  replace (c0 * d * a * P2 * D) with (7 * c0 * (d * P2 * (/ 7 * a * D)))
    by field.
  apply Rmult_le_compat_l; [lra | exact Hchain].
Qed.

(** Step 2: the exact calibrated airspeed is at least
    [sqrt (sigma / max 1 delta)] times the true airspeed. *)
Lemma tas2cas_exact_lower (y : R) :
  0 <= y ->
  sigma * y ^ 2 <= Rmax 1 delta * exact_cas y h ^ 2.
Proof.
  intros Hy.
  destruct ratios_pos as [Ha [Hd [Hc Hs]]].
  destruct (tas2cas_exact_sqr y) as [Hq [HQ [HB [Hu Hg]]]].
  rewrite Hg.
  assert (Hsig : sigma * y ^ 2
                 = 7 * (pressure atm 0 / density atm 0)
                   * (delta * (q y - 1))).
  { field. repeat split; lra. }
  rewrite Hsig.
  set (qq := q y) in *.
  set (Q := Rpower qq (7 / 2)) in *.
  set (c0 := pressure atm 0 / density atm 0) in *.
  set (d := delta) in *.
  set (BB := d * (Q - 1) + 1) in *.
  set (uu := Rpower BB (1 / (7 / 2))) in *.
  destruct (Rle_dec d 1) as [Hd1 | Hd1].
  - rewrite Rmax_left by exact Hd1.
    (* Jensen for the seven-halves power at 1 + d * (q - 1) *)
    set (m := 1 + d * (qq - 1)).
    assert (Hm : 1 <= m) by (unfold m; nra).
    pose proof (Rpower_tangent_convex m 1 (7 / 2)
                  ltac:(lra) ltac:(lra) ltac:(lra)) as H1.
    pose proof (Rpower_tangent_convex m qq (7 / 2)
                  ltac:(lra) ltac:(lra) ltac:(lra)) as H2.
    rewrite Rpower_base_1 in H1. fold Q in H2.
    set (M := Rpower m (7 / 2)) in *.
    assert (HM : 0 < M) by apply Rpower_pos.
    assert (HBM : M <= BB).
    { assert (Hcomb : (1 - d) * (M * (1 + 7 / 2 * (1 / m - 1)))
                      + d * (M * (1 + 7 / 2 * (qq / m - 1)))
                      <= (1 - d) * 1 + d * Q).
      { apply Rplus_le_compat; apply Rmult_le_compat_l; lra. }
      replace ((1 - d) * (M * (1 + 7 / 2 * (1 / m - 1)))
               + d * (M * (1 + 7 / 2 * (qq / m - 1))))
        with (M * (1 + 7 / 2 * ((1 + d * (qq - 1)) / m - 1))) in Hcomb
        by (field; lra).
      fold m in Hcomb.
      replace (M * (1 + 7 / 2 * (m / m - 1))) with M in Hcomb
        by (field; lra).
      unfold BB. lra. }
    assert (Hum : m <= uu).
    { apply Rle_trans with (Rpower M (1 / (7 / 2))).
      - right. symmetry. apply Rpower_root; lra.
      - apply Rle_Rpower_l; lra. }
    unfold m in Hum. nra.
  - assert (Hd2 : 1 <= d) by lra.
    rewrite Rmax_right by exact Hd2.
    assert (HBq : Q <= BB) by (unfold BB; nra).
    assert (Huq : qq <= uu).
    { apply Rle_trans with (Rpower Q (1 / (7 / 2))).
      - right. symmetry. apply Rpower_root; lra.
      - apply Rle_Rpower_l; lra. }
    assert (0 <= c0 * d * (uu - qq))
      by (apply Rmult_le_pos; [apply Rmult_le_pos; lra | lra]).
    nra.
Qed.

(** Step 3: a bound on the slope of the exact conversion. *)
Lemma tas2cas_exact_slope (y1 y2 : R) :
  0 <= y1 <= y2 ->
  exact_cas y2 h - exact_cas y1 h
  <= sqrt (sigma * Rmax 1 delta) * Rpower (q y2) (5 / 2) * (y2 - y1).
Proof.
  intros Hy.
  destruct ratios_pos as [Ha [Hd [Hc Hs]]].
  pose proof (tas2cas_exact_sqr_increment y1 y2 Hy) as Hinc.
  pose proof (tas2cas_exact_lower y1 ltac:(lra)) as Hl1.
  pose proof (tas2cas_exact_lower y2 ltac:(lra)) as Hl2.
  pose proof (tas2cas_exact_mono atm h rho_sl_pos p_sl_pos rho_h_pos p_h_pos
                y1 y2 Hy) as Hmono.
  pose proof (tas2cas_exact_nonneg atm h y1) as Hg1.
  pose proof (tas2cas_exact_nonneg atm h y2) as Hg2.
  set (G1 := exact_cas y1 h) in *. set (G2 := exact_cas y2 h) in *.
  set (P2 := Rpower (q y2) (5 / 2)) in *.
  assert (HP2 : 0 < P2) by apply Rpower_pos.
  set (mu := Rmax 1 delta) in *.
  assert (Hmu : 1 <= mu) by apply Rmax_l.
  set (k := sqrt (sigma * mu)).
  assert (Hk2 : k * k = sigma * mu) by (apply sqrt_sqrt; nra).
  assert (Hk : 0 < k) by (apply sqrt_lt_R0; nra).
  (* mu * G_i >= k * y_i *)
  assert (Hlow : forall y G, 0 <= y -> 0 <= G ->
                   sigma * y ^ 2 <= mu * G ^ 2 -> k * y <= mu * G).
  { intros y G Hy0 HG0 Hl.
    destruct (Rle_dec (k * y) (mu * G)) as [Hle | Hgt]; [exact Hle |].
    exfalso. assert (Hlt : mu * G < k * y) by lra.
    assert (HmG : 0 <= mu * G) by (apply Rmult_le_pos; lra).
    assert (Hsq : (mu * G) * (mu * G) < (k * y) * (k * y))
      by (apply Rmult_le_0_lt_compat; lra).
    assert (Hky : (k * y) * (k * y) = mu * (sigma * y ^ 2)).
    { replace ((k * y) * (k * y)) with ((k * k) * y ^ 2) by ring.
      rewrite Hk2. ring. }
    assert (Hml : mu * (sigma * y ^ 2) <= mu * (mu * G ^ 2))
      by (apply Rmult_le_compat_l; lra).
    replace (mu * (mu * G ^ 2)) with ((mu * G) * (mu * G)) in Hml by ring.
    lra. }
  pose proof (Hlow y1 G1 ltac:(lra) Hg1 Hl1) as Hk1.
  pose proof (Hlow y2 G2 ltac:(lra) Hg2 Hl2) as Hk2'.
  destruct (Req_dec (G1 + G2) 0) as [Hz | Hnz].
  - assert (G2 - G1 = 0) by lra.
    assert (0 <= k * P2 * (y2 - y1)).
    { apply Rmult_le_pos; [apply Rmult_le_pos; lra | lra]. }
    lra.
  - assert (Hsum : 0 < G1 + G2) by lra.
    assert (Hmain : (G2 - G1) * (mu * (G1 + G2))
                    <= k * P2 * (y2 - y1) * (mu * (G1 + G2))).
    { apply Rle_trans with (mu * (sigma * P2 * (y2 ^ 2 - y1 ^ 2))).
      - nra.
      - replace (mu * (sigma * P2 * (y2 ^ 2 - y1 ^ 2)))
          with (k * P2 * (y2 - y1) * (k * (y1 + y2))) by nra.
        apply Rmult_le_compat_l; [| lra].
        apply Rmult_le_pos; [apply Rmult_le_pos; lra | lra]. }
    apply Rmult_le_reg_r with (mu * (G1 + G2)); [nra | exact Hmain].
Qed.

(** Step 4: moving the true airspeed by at most [e] moves the exact
    calibrated airspeed by at most [e] times the slope at [y + e]. *)
Lemma tas2cas_exact_perturb (y y' e : R) :
  0 <= y -> 0 <= y' -> Rabs (y' - y) <= e ->
  Rabs (exact_cas y' h - exact_cas y h)
  <= sqrt (sigma * Rmax 1 delta) * Rpower (q (y + e)) (5 / 2) * e.
Proof.
  intros Hy Hy' He. apply Rabs_le_bounds in He.
  destruct ratios_pos as [Ha [Hd [Hc Hs]]].
  assert (Hpm : forall a b, 0 <= a <= b ->
                  Rpower (q a) (5 / 2) <= Rpower (q b) (5 / 2)).
  { intros a b Hab. apply Rle_Rpower_l; [lra |].
    assert (Hsq : 0 <= a ^ 2 <= b ^ 2) by (split; nra).
    set (r := density atm h / pressure atm h) in *.
    assert (0 <= r * a ^ 2) by (apply Rmult_le_pos; lra).
    assert (r * a ^ 2 <= r * b ^ 2) by (apply Rmult_le_compat_l; lra).
    split; lra. }
  set (k := sqrt (sigma * Rmax 1 delta)).
  assert (Hk : 0 <= k) by apply sqrt_pos.
  set (P := Rpower (q (y + e)) (5 / 2)).
  assert (HP : 0 < P) by apply Rpower_pos.
  assert (Hkp : 0 <= k * P) by (apply Rmult_le_pos; lra).
  apply Rabs_le.
  destruct (Rle_dec y y') as [Hle | Hgt].
  - pose proof (tas2cas_exact_slope y y' ltac:(lra)) as Hs1.
    pose proof (tas2cas_exact_mono atm h rho_sl_pos p_sl_pos rho_h_pos
                  p_h_pos y y' ltac:(lra)) as Hm.
    pose proof (Hpm y' (y + e) ltac:(lra)) as HP1. fold k in Hs1. fold P in HP1.
    set (P1 := Rpower (q y') (5 / 2)) in *.
    assert (HP1pos : 0 < P1) by apply Rpower_pos.
    assert (Hstep : k * P1 * (y' - y) <= k * P * e).
    { apply Rmult_le_compat; try lra.
      - apply Rmult_le_pos; lra.
      - apply Rmult_le_compat_l; lra. }
    lra.
  - pose proof (tas2cas_exact_slope y' y ltac:(lra)) as Hs1.
    pose proof (tas2cas_exact_mono atm h rho_sl_pos p_sl_pos rho_h_pos
                  p_h_pos y' y ltac:(lra)) as Hm.
    pose proof (Hpm y (y + e) ltac:(lra)) as HP1. fold k in Hs1. fold P in HP1.
    set (P1 := Rpower (q y) (5 / 2)) in *.
    assert (HP1pos : 0 < P1) by apply Rpower_pos.
    assert (Hstep : k * P1 * (y - y') <= k * P * e).
    { apply Rmult_le_compat; try lra.
      - apply Rmult_le_pos; lra.
      - apply Rmult_le_compat_l; lra. }
    lra.
Qed.

(** Up to the speed of sound and with density and pressure no larger than
    at sea level the slope is below 1.584. *)
Lemma tas2cas_exact_slope_subsonic (y : R) :
  density atm h <= density atm 0 -> pressure atm h <= pressure atm 0 ->
  density atm h / pressure atm h * y ^ 2 <= 14 / 10 ->
  sqrt (sigma * Rmax 1 delta) * Rpower (q y) (5 / 2) <= 1584 / 1000.
Proof.
  intros Hrho Hp Hm.
  destruct ratios_pos as [Ha [Hd [Hc Hs]]].
  assert (Hs1 : sigma <= 1).
  { apply Rmult_le_reg_r with (density atm 0); [assumption |].
    unfold Rdiv. rewrite Rmult_assoc, Rinv_l by lra. lra. }
  assert (Hd1 : delta <= 1).
  { apply Rmult_le_reg_r with (pressure atm 0); [assumption |].
    unfold Rdiv. rewrite Rmult_assoc, Rinv_l by lra. lra. }
  rewrite Rmax_left by exact Hd1. rewrite Rmult_1_r.
  assert (Hk : sqrt sigma <= 1)
    by (rewrite <- sqrt_1; apply sqrt_le_1_alt; exact Hs1).
  assert (Hk0 : 0 <= sqrt sigma) by apply sqrt_pos.
  assert (Hq1 : 1 <= q y) by (pose proof (pow2_ge_0 y); nra).
  assert (Hq2 : q y <= 12 / 10) by lra.
  assert (HP : Rpower (q y) (5 / 2) <= Rpower (12 / 10) (5 / 2))
    by (apply Rle_Rpower_l; lra).
  assert (Hroot : sqrt (12 / 10) <= 11 / 10).
  { replace (11 / 10) with (sqrt ((11 / 10) * (11 / 10)))
      by (apply sqrt_square; lra).
    apply sqrt_le_1_alt. lra. }
  rewrite (Rpower_five_halves (12 / 10)) in HP by lra.
  assert (Hroot0 : 0 <= sqrt (12 / 10)) by apply sqrt_pos.
  set (P := Rpower (q y) (5 / 2)) in *.
  assert (HP0 : 0 < P) by apply Rpower_pos.
  assert (HP1 : P <= 1584 / 1000) by nra.
  assert (sqrt sigma * P <= 1 * P)
    by (apply Rmult_le_compat_r; lra).
  lra.
Qed.

End SlopeFacts.

(** The values of the two-layer atmosphere at sea level and at 2000 m. *)
Lemma atm_layered_values :
  density atm_layered 0 = 1225 / 1000
  /\ pressure atm_layered 0 = 101325
  /\ density atm_layered 2000 = 10065 / 10000
  /\ pressure atm_layered 2000 = 79495.
Proof.
  unfold atm_layered. simpl.
  destruct (Rle_dec 0 1000) as [_ | Hn]; [| exfalso; lra].
  destruct (Rle_dec 2000 1000) as [Hn | _]; [exfalso; lra |].
  repeat split.
Qed.

(** C3.  For a speed [v >= 0] and an altitude at which, as at sea level,
    density and pressure are positive, [tas2cas] applied to [cas2tas v h]
    returns [v] up to the two roundings.  Without them the round trip is
    exact; each conversion moves its own result by at most 0.005; the first
    rounding reaches the result through [tas2cas], whose slope between the
    exact true airspeed and the one 0.005 above is at most [slope], so the
    round trip differs from [v] by at most [0.005 * (1 + slope)].  For a
    true airspeed up to the speed of sound (Mach number squared
    [rho * v_tas^2 / (1.4 * p)] at most 1) at an altitude whose density
    and pressure do not exceed the sea-level ones, that is at most 0.013.
    The exact true airspeed obeys
    [rho_h / rho_0 * v_tas^2 <= max 1 (p_h / p_0) * v^2]. *)
Theorem tas2cas_cas2tas_round_trip (atm : Atmosphere) (v h : R) :
  0 < density atm 0 -> 0 < pressure atm 0 ->
  0 < density atm h -> 0 < pressure atm h ->
  0 <= v ->
  let exact_tas := Airspeed.cas2tas_with atm (fun y => y) v h in
  let exact_cas y := Airspeed.tas2cas_with atm (fun y => y) y h in
  let v_tas := Airspeed.cas2tas atm v h in
  let v_back := Airspeed.tas2cas atm v_tas h in
  let slope :=
    sqrt (density atm h / density atm 0
          * Rmax 1 (pressure atm h / pressure atm 0))
    * Rpower (1 + / 7 * (density atm h / pressure atm h)
                  * (exact_tas + 5 / 1000) ^ 2) (5 / 2) in
  exact_cas exact_tas = v
  /\ v_tas = NumPy.round exact_tas 2
  /\ v_back = NumPy.round (exact_cas v_tas) 2
  /\ Rabs (v_tas - exact_tas) <= 5 / 1000
  /\ Rabs (v_back - exact_cas v_tas) <= 5 / 1000
  /\ v_back <= exact_cas (exact_tas + 5 / 1000) + 5 / 1000
  /\ (5 / 1000 <= exact_tas ->
      exact_cas (exact_tas - 5 / 1000) - 5 / 1000 <= v_back)
  /\ density atm h / density atm 0 * exact_tas ^ 2
     <= Rmax 1 (pressure atm h / pressure atm 0) * v ^ 2
  /\ Rabs (exact_cas v_tas - v) <= 5 / 1000 * slope
  /\ Rabs (v_back - v) <= 5 / 1000 * (1 + slope)
  /\ (density atm h <= density atm 0 ->
      pressure atm h <= pressure atm 0 ->
      density atm h / pressure atm h * (exact_tas + 5 / 1000) ^ 2
      <= 14 / 10 ->
      Rabs (v_back - v) <= 13 / 1000).
Proof.
  intros Hr0 Hp0 Hrh Hph Hv exact_tas exact_cas v_tas v_back slope.
  assert (He1 : Rabs (v_tas - exact_tas) <= 5 / 1000).
  { unfold v_tas, exact_tas.
    pose proof (round_error (Airspeed.cas2tas_with atm (fun y => y) v h) 2)
      as He.
    change (Airspeed.cas2tas atm v h)
      with (NumPy.round (Airspeed.cas2tas_with atm (fun y => y) v h) 2).
    simpl in He. lra. }
  assert (He2 : Rabs (v_back - exact_cas v_tas) <= 5 / 1000).
  { unfold v_back, exact_cas.
    pose proof (round_error
                  (Airspeed.tas2cas_with atm (fun y => y) v_tas h) 2) as He.
    change (Airspeed.tas2cas atm v_tas h)
      with (NumPy.round
              (Airspeed.tas2cas_with atm (fun y => y) v_tas h) 2).
    simpl in He. lra. }
  assert (Hy0 : 0 <= exact_tas)
    by (unfold exact_tas, Airspeed.cas2tas_with; apply sqrt_pos).
  assert (Htas0 : 0 <= v_tas).
  { change v_tas with (NumPy.round exact_tas 2). apply round_nonneg.
    exact Hy0. }
  assert (Hexact : exact_cas exact_tas = v)
    by (apply tas2cas_cas2tas_exact; assumption).
  assert (Hpert : Rabs (exact_cas v_tas - v) <= 5 / 1000 * slope).
  { pose proof (tas2cas_exact_perturb atm h Hr0 Hp0 Hrh Hph
                  exact_tas v_tas (5 / 1000) Hy0 Htas0 He1) as Hpt.
    fold (exact_cas v_tas) (exact_cas exact_tas) in Hpt.
    rewrite Hexact in Hpt. fold slope in Hpt. lra. }
  assert (Hall : Rabs (v_back - v) <= 5 / 1000 * (1 + slope)).
  { replace (v_back - v)
      with ((v_back - exact_cas v_tas) + (exact_cas v_tas - v)) by ring.
    eapply Rle_trans; [apply Rabs_triang |]. lra. }
  pose proof (Rabs_le_bounds _ _ He1) as Hb1.
  pose proof (Rabs_le_bounds _ _ He2) as Hb2.
  split; [exact Hexact |].
  split; [reflexivity |]. split; [reflexivity |].
  split; [exact He1 |]. split; [exact He2 |].
  split.
  { assert (Hm : exact_cas v_tas <= exact_cas (exact_tas + 5 / 1000))
      by (apply tas2cas_exact_mono; try assumption; lra).
    lra. }
  split.
  { intros Hbig.
    assert (Hm : exact_cas (exact_tas - 5 / 1000) <= exact_cas v_tas)
      by (apply tas2cas_exact_mono; try assumption; lra).
    lra. }
  split.
  { pose proof (tas2cas_exact_lower atm h Hr0 Hp0 Hrh Hph exact_tas Hy0)
      as Hlow.
    fold (exact_cas exact_tas) in Hlow. rewrite Hexact in Hlow.
    exact Hlow. }
  split; [exact Hpert |]. split; [exact Hall |].
  intros Hrho Hpr Hsub.
  pose proof (tas2cas_exact_slope_subsonic atm h Hr0 Hp0 Hrh Hph
                (exact_tas + 5 / 1000) Hrho Hpr Hsub) as Hsl.
  fold slope in Hsl. lra.
Qed.

Lemma tas2cas_cas2tas_round_trip_witness :
  Rabs (Airspeed.tas2cas atm_layered
          (Airspeed.cas2tas atm_layered 100 2000) 2000 - 100)
  <= 13 / 1000.
Proof.
  destruct atm_layered_values as (Hr0 & Hp0 & Hrh & Hph).
  pose proof (tas2cas_cas2tas_round_trip atm_layered 100 2000
                ltac:(rewrite Hr0; lra) ltac:(rewrite Hp0; lra)
                ltac:(rewrite Hrh; lra) ltac:(rewrite Hph; lra)
                ltac:(lra)) as H.
  cbv zeta in H.
  destruct H as (_ & _ & _ & _ & _ & _ & _ & Hup & _ & _ & Hnum).
  assert (Hy0 : 0 <= Airspeed.cas2tas_with atm_layered (fun y => y) 100 2000)
    by (unfold Airspeed.cas2tas_with; apply sqrt_pos).
  set (y := Airspeed.cas2tas_with atm_layered (fun y => y) 100 2000) in *.
  rewrite Hr0, Hp0, Hrh, Hph in Hup, Hnum.
  rewrite Rmax_left in Hup by lra.
  apply Hnum; [lra | lra |].
  assert (Hy : y <= 111) by nra.
  assert (Hsq : (y + 5 / 1000) ^ 2 <= 12323) by nra.
  lra.
Defined.

(** ** Termination of [simulation_euler] *)

Section StopConditionFacts.
Import Simulation.

Lemma stop_condition_climb (h : R) :
  stop_condition "climb" h = true <-> 10000 <= h.
Proof.
  unfold stop_condition. simpl String.eqb.
  destruct (Rge_dec h 10000) as [Hge | Hlt]; split; intros H;
    try reflexivity; try discriminate; lra.
Qed.

Lemma stop_condition_descent (h : R) :
  stop_condition "descent" h = true <-> h <= 1000.
Proof.
  unfold stop_condition. simpl String.eqb.
  destruct (Rle_dec h 1000) as [Hle | Hgt]; split; intros H;
    try reflexivity; try discriminate; lra.
Qed.

Lemma stop_condition_other (phase : string) (h : R) :
  phase <> "climb"%string -> phase <> "descent"%string ->
  stop_condition phase h = false.
Proof.
  intros Hc Hd. unfold stop_condition.
  apply String.eqb_neq in Hc, Hd. now rewrite Hc, Hd.
Qed.

End StopConditionFacts.

(** A returned run of [simulation_euler] stopped at the first pass whose
    altitude met the stop condition, and that altitude is the last one of
    the trajectory. *)
Lemma simulation_euler_returned_inv
    (atm : Atmosphere) (aero : AeroChar) (ics : Simulation.Ics)
    (time_step : R) (pcm : Simulation.ControlModel)
    (k_p v_ref cruise_mach : R) (phase : string) (fuel : nat)
    (res : Simulation.Res) :
  let h_after n :=
    Simulation.st_h
      (Simulation.euler_iter atm aero time_step pcm k_p v_ref cruise_mach
         phase (Simulation.euler_theta_trim atm aero ics phase) n
         (Simulation.euler_start atm aero ics phase)) in
  Simulation.simulation_euler atm aero fuel ics time_step pcm k_p v_ref
    cruise_mach phase = Simulation.Returned res ->
  exists n,
    (n < fuel)%nat
    /\ last_R (Simulation.res_h res) = h_after (S n)
    /\ Simulation.stop_condition phase (h_after (S n)) = true
    /\ (forall k, (k < n)%nat ->
          Simulation.stop_condition phase (h_after (S k)) = false).
Proof.
  intros h_after Hret. unfold Simulation.simulation_euler in Hret.
  apply euler_loop_returned_inv in Hret.
  destruct Hret as [n [Hlt [Hstop [Hno Hres]]]].
  exists n. repeat split; try assumption.
  subst res. rewrite euler_trace_h, last_map_seq. reflexivity.
Qed.




Section CheckedLoopFacts.
Import Simulation AltitudeRange.
Variables lo hi : R.
Variable atm : Atmosphere.
Variable aero : AeroChar.
Variable time_step : R.
Variable pcm : ControlModel.
Variables k_p v_ref cruise_mach : R.
Variable phase : string.
Variable theta_trim : R.

Local Abbreviation step :=
  (euler_step atm aero time_step pcm k_p v_ref cruise_mach phase theta_trim).
Local Abbreviation iter :=
  (euler_iter atm aero time_step pcm k_p v_ref cruise_mach phase theta_trim).
Local Abbreviation trace :=
  (euler_trace atm aero time_step pcm k_p v_ref cruise_mach phase
     theta_trim).
Local Abbreviation append :=
  (euler_append pcm k_p v_ref cruise_mach phase theta_trim).
Local Abbreviation cloop :=
  (euler_loop_checked lo hi atm aero time_step pcm k_p v_ref cruise_mach
     phase theta_trim).

Lemma euler_loop_checked_S (fuel : nat) (s : State) (res : Res) :
  cloop (S fuel) s res
  = if in_range lo hi (st_h (step s)) then
      if stop_condition phase (st_h (step s))
      then CReturned (append res s (step s))
      else cloop fuel (step s) (append res s (step s))
    else CRaised.
Proof. reflexivity. Qed.

(** While the altitudes stay in range and none meets the stop condition,
    the checked loop has made all its passes. *)
Lemma euler_loop_checked_running (fuel : nat) (s : State) (res : Res) :
  (forall k, (k < fuel)%nat ->
             stop_condition phase (st_h (iter (S k) s)) = false) ->
  (forall k, (k < fuel)%nat -> in_range lo hi (st_h (iter (S k) s)) = true) ->
  cloop fuel s res = CRunning (iter fuel s) (trace fuel s res).
Proof.
  revert s res. induction fuel as [| fuel IH]; intros s res Hno Hin.
  - reflexivity.
  - rewrite euler_loop_checked_S, euler_iter_S_l, euler_trace_S.
    pose proof (Hno 0%nat ltac:(lia)) as H0.
    pose proof (Hin 0%nat ltac:(lia)) as H1.
    change (iter 1 s) with (step s) in H0, H1. rewrite H0, H1.
    apply IH; intros k Hk; [apply (Hno (S k)) | apply (Hin (S k))]; lia.
Qed.

(** The first altitude out of range ends the checked loop with the error,
    if no earlier altitude met the stop condition. *)
Lemma euler_loop_checked_raised (n fuel : nat) (s : State) (res : Res) :
  (n < fuel)%nat ->
  (forall k, (k <= n)%nat ->
             stop_condition phase (st_h (iter (S k) s)) = false) ->
  in_range lo hi (st_h (iter (S n) s)) = false ->
  cloop fuel s res = CRaised.
Proof.
  revert fuel s res. induction n as [| n IH]; intros fuel s res Hlt Hno Hout;
    (destruct fuel as [| fuel]; [lia |]); rewrite euler_loop_checked_S.
  - change (iter 1 s) with (step s) in Hout. now rewrite Hout.
  - destruct (in_range lo hi (st_h (step s))); [| reflexivity].
    pose proof (Hno 0%nat ltac:(lia)) as H0.
    change (iter 1 s) with (step s) in H0. rewrite H0.
    apply (IH fuel (step s)); [lia | | exact Hout].
    intros k Hk. apply (Hno (S k)). lia.
Qed.

(** Without a stop condition that can be met, the checked loop does not
    return. *)
Lemma euler_loop_checked_never_returns (fuel : nat) (s : State) (res : Res) :
  (forall h, stop_condition phase h = false) ->
  is_creturned (cloop fuel s res) = false.
Proof.
  intros Hno. revert s res. induction fuel as [| fuel IH]; intros s res.
  - reflexivity.
  - rewrite euler_loop_checked_S, Hno.
    destruct (in_range lo hi (st_h (step s))); [apply IH | reflexivity].
Qed.

End CheckedLoopFacts.




(** ** Fuel flow and fuel accounting *)

(** In the uniform sea-level atmosphere the temperature ratio is one. *)
Lemma tsfc_uniform (mach h : R) :
  ThrustModel.tsfc atm_sea_level mach h = 11 * (1 + mach).
Proof.
  unfold ThrustModel.tsfc. cbn [temperature atm_sea_level].
  replace (28815 / 100 / (28815 / 100)) with 1 by field.
  rewrite sqrt_1. ring.
Qed.

(** C5, as the specification words it, fails: the flow has the sign of the
    thrust.  A thrust of -1000 N at sea level and Mach 0 gives -11000 mg/s. *)
Lemma fuel_flow_negative_thrust :
  ThrustModel.fuel_flow atm_sea_level (-1000) 0 0 = -11000
  /\ ~ 0 <= ThrustModel.fuel_flow atm_sea_level (-1000) 0 0.
Proof.
  assert (H : ThrustModel.fuel_flow atm_sea_level (-1000) 0 0 = -11000).
  { unfold ThrustModel.fuel_flow. rewrite tsfc_uniform.
    replace (11 * (1 + 0) * -1000) with (IZR (-11000)) by lra.
    apply round_IZR. }
  split; [exact H | rewrite H; lra].
Qed.

(** C5, as the code has it.  [fuel_flow] is [11 * (1 + mach) *
    sqrt (T_h / T_sl) * thrust] rounded to four decimals; it is non-negative
    when the thrust is non-negative and the Mach number at least -1.  Each
    pass of [simulation_euler] adds [|fuel_flow * dt|] to the burnt fuel
    (held in grams, the flow being in mg/s), so the last recorded burnt
    fuel is the sum of these increments over the passes made. *)
Theorem fuel_flow_and_fuel_accounting
    (atm : Atmosphere) (aero : AeroChar) (ics : Simulation.Ics)
    (time_step : R) (pcm : Simulation.ControlModel)
    (k_p v_ref cruise_mach : R) (phase : string) :
  let step :=
    Simulation.euler_step atm aero time_step pcm k_p v_ref cruise_mach phase
      (Simulation.euler_theta_trim atm aero ics phase) in
  let state_at n :=
    Simulation.euler_iter atm aero time_step pcm k_p v_ref cruise_mach phase
      (Simulation.euler_theta_trim atm aero ics phase) n
      (Simulation.euler_start atm aero ics phase) in
  let burn s :=
    Simulation.mg_to_g
      (Rabs (Simulation.euler_fuel_flow atm phase s * time_step)) in
  (forall thrust mach h,
      ThrustModel.fuel_flow atm thrust mach h
      = NumPy.round
          (11 * (1 + mach) * sqrt (temperature atm h / temperature atm 0)
           * thrust) 4)
  /\ (forall thrust mach h,
        0 <= thrust -> -1 <= mach ->
        0 <= ThrustModel.fuel_flow atm thrust mach h)
  /\ (forall s,
        Simulation.st_m_f_burnt (step s)
        = Simulation.st_m_f_burnt s + burn s)
  /\ (forall fuel,
        let res :=
          outcome_res
            (Simulation.simulation_euler atm aero fuel ics time_step pcm k_p
               v_ref cruise_mach phase) in
        exists n,
          List.length (Simulation.res_fuel_burn res) = S n
          /\ last_R (Simulation.res_fuel_burn res)
             = sum_upto (fun i => burn (state_at i)) n).
Proof.
  intros step state_at burn.
  split; [reflexivity |].
  split; [intros thrust mach h; apply fuel_flow_nonneg |].
  split; [intros s; apply euler_step_fuel |].
  intros fuel res. unfold res, Simulation.simulation_euler.
  destruct (euler_loop_res atm aero time_step pcm k_p v_ref cruise_mach phase
              (Simulation.euler_theta_trim atm aero ics phase) fuel
              (Simulation.euler_start atm aero ics phase)
              (Simulation.euler_init_res atm aero ics phase))
    as [n [_ Hres]].
  exists n. rewrite Hres, euler_trace_fuel_burn.
  split.
  - rewrite length_app, length_map, length_seq. reflexivity.
  - destruct n as [| n].
    + reflexivity.
    + rewrite last_map_seq, euler_iter_fuel.
      cbn [Simulation.euler_start Simulation.st_m_f_burnt].
      unfold burn, state_at. ring.
Qed.

Lemma fuel_flow_and_fuel_accounting_witness :
  0 <= ThrustModel.fuel_flow atm_sea_level 1000 (1 / 2) 0.
Proof.
  apply (fuel_flow_and_fuel_accounting atm_sea_level
           (aero_polar atm_sea_level) ics_climb_example 1
           (PilotControl.pilot_pitch_control atm_sea_level) (1 / 100) 130
           (85 / 100) "climb"); lra.
Defined.

(** ** The loop of [simulation_descent_approach_euler] *)

Section ApproachLoopFacts.
Import Simulation.
Variable atm : Atmosphere.
Variable aero : AeroChar.
Variables time_step gamma screen_h : R.

Local Abbreviation step := (approach_step atm aero time_step gamma).
Local Abbreviation iter := (approach_iter atm aero time_step gamma).
Local Abbreviation loop := (approach_loop atm aero time_step gamma screen_h).
Local Abbreviation controls := (approach_append_controls atm aero gamma).
Local Abbreviation record := (approach_append_state atm).
Local Abbreviation flow := (approach_fuel_flow atm aero gamma).

Lemma approach_loop_S (fuel : nat) (s : ApproachState) (res : ApproachRes) :
  loop (S fuel) s res
  = if Rle_dec (ap_h (step s)) screen_h then Returned (controls res s)
    else loop fuel (step s) (record (controls res s) (step s)).
Proof. reflexivity. Qed.

Lemma approach_iter_S (n : nat) (s : ApproachState) :
  iter (S n) s = step (iter n s).
Proof.
  revert s. induction n as [| n IH]; intros s; [reflexivity |].
  change (iter (S (S n)) s) with (iter (S n) (step s)).
  rewrite IH. reflexivity.
Qed.

(** The step does not touch the true airspeed. *)
Lemma approach_step_v_tas (s : ApproachState) :
  ap_v_tas (step s) = ap_v_tas s.
Proof. reflexivity. Qed.

Lemma approach_iter_v_tas (n : nat) (s : ApproachState) :
  ap_v_tas (iter n s) = ap_v_tas s.
Proof.
  induction n as [| n IH]; [reflexivity |].
  now rewrite approach_iter_S, approach_step_v_tas.
Qed.

Lemma approach_step_mach (s : ApproachState) :
  ap_mach (step s) = Airspeed.tas2mach atm (ap_v_tas s) (ap_h (step s)).
Proof. reflexivity. Qed.

Lemma approach_step_h (s : ApproachState) :
  ap_h (step s) = ap_h s + ap_v_tas s * sin gamma * time_step.
Proof. reflexivity. Qed.

Lemma approach_step_weight (s : ApproachState) :
  ap_w (step s)
  = ap_w s + mg_m_s2_to_N ((- flow s * time_step) * Const.Grav_const).
Proof. reflexivity. Qed.

(** A returned result holds the initial entry and the states of the
    passes before the one that broke out of the loop; the state that met
    the screen height is not among them. *)
Lemma approach_loop_returned_inv
    (fuel : nat) (s : ApproachState) (res res' : ApproachRes) :
  loop fuel s res = Returned res' ->
  exists n, (n < fuel)%nat
            /\ ap_h (iter (S n) s) <= screen_h
            /\ (forall k, (k < n)%nat -> ap_h (iter (S k) s) > screen_h)
            /\ ares_h res'
               = ares_h res ++ map (fun k => ap_h (iter (S k) s)) (seq 0 n).
Proof.
  revert s res. induction fuel as [| fuel IH]; intros s res Hret.
  - discriminate Hret.
  - rewrite approach_loop_S in Hret.
    destruct (Rle_dec (ap_h (step s)) screen_h) as [Hle | Hgt].
    + exists 0%nat. inversion Hret; subst res'.
      repeat split; [lia | exact Hle | intros k Hk; lia |].
      simpl. now rewrite app_nil_r.
    + apply IH in Hret. destruct Hret as [n [Hlt [Hs [Hno Hres]]]].
      exists (S n). repeat split; [lia | exact Hs | |].
      * intros [| k] Hk; [apply Rnot_le_gt, Hgt | apply Hno; lia].
      * rewrite Hres. cbn [approach_append_state approach_append_controls
                           ares_h].
        rewrite <- app_assoc. f_equal.
        change (seq 0 (S n)) with (0%nat :: seq 1 n).
        rewrite <- seq_shift, map_cons, map_map. reflexivity.
Qed.

(** The loop returns as soon as a step reaches the screen height. *)
Lemma approach_loop_returns_some
    (n fuel : nat) (s : ApproachState) (res : ApproachRes) :
  (n < fuel)%nat ->
  ap_h (iter (S n) s) <= screen_h ->
  is_returned (loop fuel s res) = true.
Proof.
  revert fuel s res. induction n as [| n IH]; intros fuel s res Hlt Hstop;
    (destruct fuel as [| fuel]; [lia |]); rewrite approach_loop_S;
    destruct (Rle_dec (ap_h (step s)) screen_h) as [Hle | Hgt];
    try reflexivity.
  - contradiction.
  - apply IH; [lia | exact Hstop].
Qed.

(** Only altitudes above the screen height are recorded. *)
Lemma approach_loop_above
    (fuel : nat) (s : ApproachState) (res : ApproachRes) :
  Forall (fun h => h > screen_h) (ares_h res) ->
  Forall (fun h => h > screen_h) (ares_h (outcome_res (loop fuel s res))).
Proof.
  revert s res. induction fuel as [| fuel IH]; intros s res Hrec.
  - exact Hrec.
  - rewrite approach_loop_S.
    destruct (Rle_dec (ap_h (step s)) screen_h) as [Hle | Hgt].
    + exact Hrec.
    + apply IH.
      cbn [approach_append_state approach_append_controls ares_h].
      apply Forall_app. split; [exact Hrec |].
      constructor; [apply Rnot_le_gt, Hgt | constructor].
Qed.

(** The recorded airspeeds and Mach numbers are those of the true
    airspeed [v] the loop runs with, at the altitude recorded with them. *)
Lemma approach_loop_columns
    (v : R) (fuel : nat) (s : ApproachState) (res : ApproachRes) :
  ap_v_tas s = v ->
  Forall2 (fun h v_ias => v_ias = Airspeed.tas2cas atm v h)
    (ares_h res) (ares_v_ias res) ->
  Forall2 (fun h mach => mach = Airspeed.tas2mach atm v h)
    (ares_h res) (ares_mach res) ->
  Forall2 (fun h v_ias => v_ias = Airspeed.tas2cas atm v h)
    (ares_h (outcome_res (loop fuel s res)))
    (ares_v_ias (outcome_res (loop fuel s res)))
  /\ Forall2 (fun h mach => mach = Airspeed.tas2mach atm v h)
       (ares_h (outcome_res (loop fuel s res)))
       (ares_mach (outcome_res (loop fuel s res))).
Proof.
  revert s res. induction fuel as [| fuel IH]; intros s res Hv Hias Hmach.
  - split; assumption.
  - rewrite approach_loop_S.
    destruct (Rle_dec (ap_h (step s)) screen_h) as [Hle | Hgt].
    + split; assumption.
    + apply IH; [now rewrite approach_step_v_tas | |];
        cbn [approach_append_state approach_append_controls ares_h
             ares_v_ias ares_mach];
        (apply Forall2_app; [assumption |]); constructor;
        try constructor.
      * now rewrite approach_step_v_tas, Hv.
      * now rewrite approach_step_mach, Hv.
Qed.

End ApproachLoopFacts.

(** C9.  When the initial altitude is above the screen height, every
    altitude recorded by [simulation_descent_approach_euler] is above it:
    the returned column is the initial altitude followed by the altitudes
    of the passes before the one that broke out, whose altitude, at or below
    the screen height, is not recorded.  In [simulation_euler], by contrast,
    the last recorded altitude is the one that met the stop condition. *)
Theorem approach_altitudes_above_screen
    (atm : Atmosphere) (aero : AeroChar) (ics : Simulation.Ics)
    (time_step v_ref glideslope_angle screen_h : R) :
  Simulation.ics_h ics > screen_h ->
  let run fuel :=
    Simulation.simulation_descent_approach_euler atm aero fuel ics time_step
      v_ref glideslope_angle screen_h in
  let h_after n :=
    Simulation.ap_h
      (Simulation.approach_iter atm aero time_step (-1 * glideslope_angle) n
         (Simulation.approach_start atm ics v_ref)) in
  (forall fuel,
      Forall (fun h => h > screen_h)
        (Simulation.ares_h (outcome_res (run fuel))))
  /\ (forall fuel res,
        run fuel = Simulation.Returned res ->
        exists n,
          (n < fuel)%nat
          /\ Simulation.ares_h res = map h_after (seq 0 (S n))
          /\ h_after (S n) <= screen_h)
  /\ (forall pcm k_p cruise_mach phase fuel res,
        Simulation.simulation_euler atm aero fuel ics time_step pcm k_p v_ref
          cruise_mach phase = Simulation.Returned res ->
        Simulation.stop_condition phase (last_R (Simulation.res_h res))
        = true).
Proof.
  intros Hh run h_after.
  split; [| split].
  - intros fuel. unfold run, Simulation.simulation_descent_approach_euler.
    apply approach_loop_above.
    cbn [Simulation.approach_init_res Simulation.ares_h
         Simulation.approach_start Simulation.ap_h].
    repeat constructor. exact Hh.
  - intros fuel res Hret.
    unfold run, Simulation.simulation_descent_approach_euler in Hret.
    apply approach_loop_returned_inv in Hret.
    destruct Hret as [n [Hlt [Hstop [_ Hres]]]].
    exists n. repeat split; [exact Hlt | | exact Hstop].
    rewrite Hres.
    change (seq 0 (S n)) with (0%nat :: seq 1 n).
    rewrite <- seq_shift, map_cons, map_map. reflexivity.
  - intros pcm k_p cruise_mach phase fuel res Hret.
    destruct (simulation_euler_returned_inv atm aero ics time_step pcm k_p
                v_ref cruise_mach phase fuel res Hret)
      as [n [_ [Hlast [Hstop _]]]].
    now rewrite Hlast.
Qed.

Lemma approach_altitudes_above_screen_witness :
  Forall (fun h => h > 10668 / 1000)
    (Simulation.ares_h
       (outcome_res
          (Simulation.simulation_descent_approach_euler atm_sea_level
             (aero_polar atm_sea_level) 6 ics_approach_example 1 100
             (PI / 6) (10668 / 1000)))).
Proof.
  apply (approach_altitudes_above_screen atm_sea_level
           (aero_polar atm_sea_level) ics_approach_example 1 100 (PI / 6)
           (10668 / 1000)).
  simpl. lra.
Defined.

Section ApproachDescentFacts.
Import Simulation.
Variable atm : Atmosphere.
Variable aero : AeroChar.
Variables time_step gamma : R.

(** The altitude falls by the same amount at every pass. *)
Lemma approach_iter_h (n : nat) (s : ApproachState) :
  ap_h (approach_iter atm aero time_step gamma n s)
  = ap_h s + INR n * (ap_v_tas s * sin gamma * time_step).
Proof.
  induction n as [| n IH].
  - simpl. ring.
  - rewrite approach_iter_S, approach_step_h, approach_iter_v_tas, IH,
      S_INR.
    ring.
Qed.

End ApproachDescentFacts.

Lemma sin_glideslope_30 : sin (-1 * (PI / 6)) = - (1 / 2).
Proof.
  replace (-1 * (PI / 6)) with (- (PI / 6)) by ring.
  now rewrite sin_neg, sin_PI6.
Qed.

(** The 30-degree approach from 300 m at 100 m/s loses 50 m per second and
    returns at its sixth pass, with the altitudes 300, 250, ..., 50. *)
Lemma approach_example_returns :
  exists res,
    Simulation.simulation_descent_approach_euler atm_sea_level
      (aero_polar atm_sea_level) 6 ics_approach_example 1 100 (PI / 6)
      (10668 / 1000) = Simulation.Returned res
    /\ Simulation.ares_h res = [300; 250; 200; 150; 100; 50].
Proof.
  pose (s0 := Simulation.approach_start atm_sea_level ics_approach_example
                100).
  assert (Hh : forall n,
             Simulation.ap_h
               (Simulation.approach_iter atm_sea_level
                  (aero_polar atm_sea_level) 1 (-1 * (PI / 6)) n s0)
             = 300 - 50 * INR n).
  { intros n. rewrite approach_iter_h, sin_glideslope_30.
    cbn [s0 Simulation.approach_start Simulation.ap_h Simulation.ap_v_tas
         Simulation.ics_h ics_approach_example].
    lra. }
  destruct (Simulation.simulation_descent_approach_euler atm_sea_level
              (aero_polar atm_sea_level) 6 ics_approach_example 1 100
              (PI / 6) (10668 / 1000)) as [res | s res] eqn:Hrun.
  - exists res. split; [reflexivity |].
    unfold Simulation.simulation_descent_approach_euler in Hrun.
    apply approach_loop_returned_inv in Hrun.
    destruct Hrun as [n [Hlt [Hstop [Hno Hres]]]].
    fold s0 in Hstop, Hno, Hres.
    rewrite Hh in Hstop.
    assert (Hn : n = 5%nat).
    { destruct (Nat.eq_dec n 5) as [-> | Hne]; [reflexivity |].
      exfalso. assert (Hle : (n <= 4)%nat) by lia.
      apply le_INR in Hle. rewrite S_INR in Hstop.
      simpl in Hle. lra. }
    subst n. rewrite Hres.
    cbn [Simulation.approach_init_res Simulation.ares_h seq map app].
    fold s0. rewrite !Hh.
    cbn [Simulation.approach_start Simulation.ap_h Simulation.ics_h
         ics_approach_example].
    simpl INR. repeat (f_equal; try lra).
  - exfalso.
    assert (Hret : is_returned
              (Simulation.simulation_descent_approach_euler atm_sea_level
                 (aero_polar atm_sea_level) 6 ics_approach_example 1 100
                 (PI / 6) (10668 / 1000)) = true).
    { unfold Simulation.simulation_descent_approach_euler.
      apply (approach_loop_returns_some _ _ _ _ _ 5); [lia |].
      fold s0. rewrite Hh. simpl INR. lra. }
    rewrite Hrun in Hret. discriminate Hret.
Qed.

(** C10.  [simulation_descent_approach_euler] never changes the true
    airspeed it initialised to [v_ref]: a step leaves it as it is, so after
    any number of passes it is [v_ref], and every recorded airspeed is
    [tas2cas v_ref h] and every recorded Mach number [tas2mach v_ref h] for
    the altitude [h] recorded at the same index. *)
Theorem approach_true_airspeed_unchanged
    (atm : Atmosphere) (aero : AeroChar) (ics : Simulation.Ics)
    (time_step v_ref glideslope_angle screen_h : R) :
  let gamma := -1 * glideslope_angle in
  (forall s,
      Simulation.ap_v_tas (Simulation.approach_step atm aero time_step gamma s)
      = Simulation.ap_v_tas s)
  /\ (forall n,
        Simulation.ap_v_tas
          (Simulation.approach_iter atm aero time_step gamma n
             (Simulation.approach_start atm ics v_ref)) = v_ref)
  /\ (forall fuel,
        let res :=
          outcome_res
            (Simulation.simulation_descent_approach_euler atm aero fuel ics
               time_step v_ref glideslope_angle screen_h) in
        Forall2 (fun h v_ias => v_ias = Airspeed.tas2cas atm v_ref h)
          (Simulation.ares_h res) (Simulation.ares_v_ias res)
        /\ Forall2 (fun h mach => mach = Airspeed.tas2mach atm v_ref h)
             (Simulation.ares_h res) (Simulation.ares_mach res)).
Proof.
  intros gamma.
  split; [intros s; apply approach_step_v_tas |].
  split; [intros n; now rewrite approach_iter_v_tas |].
  intros fuel res. unfold res, Simulation.simulation_descent_approach_euler.
  apply approach_loop_columns; [reflexivity | |];
    cbn [Simulation.approach_init_res Simulation.ares_h Simulation.ares_v_ias
         Simulation.ares_mach Simulation.approach_start Simulation.ap_h
         Simulation.ap_v_tas Simulation.ap_mach];
    repeat constructor.
Qed.

(** ** Weight *)

Section WeightFacts.
Import Simulation.
Variable atm : Atmosphere.
Variable aero : AeroChar.

Lemma weight_change_nonpos (flow dt : R) :
  0 <= flow -> 0 <= dt ->
  mg_m_s2_to_N ((- flow * dt) * Const.Grav_const) <= 0.
Proof.
  intros Hf Hdt. unfold mg_m_s2_to_N, Const.Grav_const.
  pose proof (Rmult_le_pos _ _ Hf Hdt). lra.
Qed.

Lemma weight_change_pos (flow dt : R) :
  flow < 0 -> 0 < dt ->
  0 < mg_m_s2_to_N ((- flow * dt) * Const.Grav_const).
Proof.
  intros Hf Hdt. unfold mg_m_s2_to_N, Const.Grav_const.
  assert (0 < - flow * dt) by (apply Rmult_lt_0_compat; lra). lra.
Qed.

(** A pass of [simulation_euler] does not raise the weight while the
    engines deliver a non-negative thrust. *)
Lemma euler_step_weight_le
    (time_step : R) (pcm : ControlModel) (k_p v_ref cruise_mach : R)
    (phase : string) (theta_trim : R) (s : State) :
  0 <= time_step -> 0 <= euler_inst_thrust atm phase s -> -1 <= st_mach s ->
  st_w (euler_step atm aero time_step pcm k_p v_ref cruise_mach phase
          theta_trim s) <= st_w s.
Proof.
  intros Hdt Ht Hm. rewrite euler_step_weight.
  pose proof (weight_change_nonpos (euler_fuel_flow atm phase s) time_step)
    as Hw.
  assert (0 <= euler_fuel_flow atm phase s).
  { apply fuel_flow_nonneg; [unfold kN_to_N; lra | exact Hm]. }
  lra.
Qed.

(** A pass of the descent approach does not raise the weight while the
    solved thrust is non-negative ... *)
Lemma approach_step_weight_le (time_step gamma : R) (s : ApproachState) :
  0 <= time_step -> 0 <= approach_inst_thrust atm aero gamma s ->
  -1 <= ap_mach s ->
  ap_w (approach_step atm aero time_step gamma s) <= ap_w s.
Proof.
  intros Hdt Ht Hm. rewrite approach_step_weight.
  pose proof (weight_change_nonpos (approach_fuel_flow atm aero gamma s)
                time_step) as Hw.
  assert (0 <= approach_fuel_flow atm aero gamma s)
    by (apply fuel_flow_nonneg; assumption).
  lra.
Qed.

(** ... and raises it when the solved thrust is negative. *)
Lemma approach_step_weight_gt (time_step gamma : R) (s : ApproachState) :
  0 < time_step ->
  ThrustModel.tsfc atm (ap_mach s) (ap_h s)
  * approach_inst_thrust atm aero gamma s <= -1 ->
  ap_w (approach_step atm aero time_step gamma s) > ap_w s.
Proof.
  intros Hdt Ht. rewrite approach_step_weight.
  pose proof (weight_change_pos (approach_fuel_flow atm aero gamma s)
                time_step) as Hw.
  assert (approach_fuel_flow atm aero gamma s < 0)
    by (apply fuel_flow_neg; exact Ht).
  lra.
Qed.

End WeightFacts.

(** The thrust the 30-degree approach solves at its first pass is below
    -800 kN: the drag of the sample polar cannot balance half the weight. *)
Lemma approach_example_thrust :
  Simulation.approach_inst_thrust atm_sea_level (aero_polar atm_sea_level)
    (-1 * (PI / 6))
    (Simulation.approach_start atm_sea_level ics_approach_example 100)
  <= -800000.
Proof.
  unfold Simulation.approach_inst_thrust.
  cbn [Simulation.approach_start Simulation.ap_v_tas Simulation.ap_h
       Simulation.ap_w Simulation.ics_h Simulation.ics_w
       ics_approach_example].
  rewrite sin_glideslope_30, (tas2cas_uniform 100) by lia.
  cbn [aero_polar drag].
  set (c_l := Aerodynamics.c_l_steady atm_sea_level 100 300 2000000 Const.S).
  assert (Hcl : 0 <= c_l <= 1).
  { unfold c_l, Aerodynamics.c_l_steady.
    rewrite (cas2tas_uniform 100) by lia.
    cbn [density atm_sea_level]. unfold Const.S. split.
    - apply round_nonneg. apply Rmult_le_pos; [lra |].
      apply Rlt_le, Rinv_0_lt_compat. lra.
    - replace 1 with (NumPy.round (IZR 1) 4) by apply round_IZR.
      apply round_mono. apply Rmult_le_reg_r with (1225 / 1000 * 500 * 100 ^ 2);
        [lra |].
      unfold Rdiv at 1. rewrite Rmult_assoc, Rinv_l by lra. lra. }
  rewrite (cas2tas_uniform 100) by lia.
  cbn [density atm_sea_level]. unfold Const.S.
  assert (Hsq : 0 <= c_l ^ 2 <= 1) by nra.
  nra.
Qed.

(** C1.  The weight can rise: the first pass of the descent approach from
    300 m at 100 m/s and 2000 kN on a 30-degree glideslope solves a negative
    thrust, hence a negative fuel flow, and ends with a weight above the
    initial one, while the loop carries on. *)
Theorem approach_weight_increases_at_negative_thrust :
  exists s res,
    Simulation.simulation_descent_approach_euler atm_sea_level
      (aero_polar atm_sea_level) 1 ics_approach_example 1 100 (PI / 6)
      (10668 / 1000) = Simulation.Running s res
    /\ Simulation.ap_w s > Simulation.ics_w ics_approach_example.
Proof.
  pose (s0 := Simulation.approach_start atm_sea_level ics_approach_example
                100).
  exists (Simulation.approach_step atm_sea_level (aero_polar atm_sea_level) 1
            (-1 * (PI / 6)) s0).
  eexists. split.
  - unfold Simulation.simulation_descent_approach_euler. fold s0.
    rewrite approach_loop_S.
    destruct (Rle_dec _ (10668 / 1000)) as [Hle | Hgt]; [| reflexivity].
    exfalso. rewrite approach_step_h, sin_glideslope_30 in Hle.
    cbn [s0 Simulation.approach_start Simulation.ap_h Simulation.ap_v_tas
         Simulation.ics_h ics_approach_example] in Hle.
    lra.
  - change (Simulation.ics_w ics_approach_example) with (Simulation.ap_w s0).
    apply approach_step_weight_gt; [lra |].
    pose proof approach_example_thrust as Hthrust. fold s0 in Hthrust.
    rewrite tsfc_uniform.
    assert (Hmach : 0 <= Simulation.ap_mach s0).
    { cbn [s0 Simulation.approach_start Simulation.ap_mach].
      unfold Airspeed.tas2mach. apply round_nonneg.
      cbn [speed_of_sound atm_sea_level]. lra. }
    nra.
Qed.

(** * Further properties of the code *)

(** ** The result cache of [load_or_run_simulation] *)

(** A call with a valid phase whose result file exists. *)
Lemma load_or_run_simulation_hit
    (Result Other : Type) (files : string -> option Result)
    (simulation : Simulation.Kwargs Other -> option Result)
    (kwargs : Simulation.Kwargs Other) (loaded : Result) :
  In (Simulation.kw_phase kwargs) Simulation.valid_phases ->
  let path :=
    Simulation.result_file_path (Simulation.kw_phase kwargs)
      (Simulation.ics_w (Simulation.kw_ics kwargs))
      (Simulation.kw_v_ref kwargs) in
  files path = Some loaded ->
  Simulation.load_or_run_simulation files simulation kwargs
  = ([Simulation.PathExists path;
      Simulation.Print "Simulation results file found";
      Simulation.OpenRead path;
      Simulation.Print "Simulation results loaded"],
     Simulation.Return loaded).
Proof.
  intros Hvalid path Hfile. unfold Simulation.load_or_run_simulation.
  apply valid_phase_check in Hvalid. rewrite Hvalid. cbn [negb].
  fold path. now rewrite Hfile.
Qed.

(** X1.  For a valid phase [load_or_run_simulation] first asks whether the
    result file exists.  If it does, the loaded content is returned and the
    simulation is not called; if it does not, the simulation is called and
    the call ends as the simulation does. *)
Theorem load_or_run_simulation_runs_only_on_miss
    (Result Other : Type) (files : string -> option Result)
    (simulation : Simulation.Kwargs Other -> option Result)
    (kwargs : Simulation.Kwargs Other) :
  In (Simulation.kw_phase kwargs)
     ["climb"; "descent"; "descent_approach"]%string ->
  let path :=
    Simulation.result_file_path (Simulation.kw_phase kwargs)
      (Simulation.ics_w (Simulation.kw_ics kwargs))
      (Simulation.kw_v_ref kwargs) in
  let call := Simulation.load_or_run_simulation files simulation kwargs in
  hd_error (fst call) = Some (Simulation.PathExists path)
  /\ (forall loaded,
        files path = Some loaded ->
        snd call = Simulation.Return loaded
        /\ ~ In Simulation.CallSimulation (fst call))
  /\ (files path = None ->
      In Simulation.CallSimulation (fst call)
      /\ snd call = match simulation kwargs with
                    | Some result => Simulation.Return result
                    | None => Simulation.Diverge
                    end).
Proof.
  intros Hvalid path call. unfold call, Simulation.load_or_run_simulation.
  apply valid_phase_check in Hvalid. rewrite Hvalid. cbn [negb].
  fold path.
  destruct (files path) as [loaded |] eqn:Hfile.
  - split; [reflexivity |]. split; [| discriminate].
    intros l Hl. inversion Hl; subst l. split; [reflexivity |].
    cbn [fst]. intros [H | [H | [H | [H | []]]]]; discriminate H.
  - split; [destruct (simulation kwargs); reflexivity |].
    split; [discriminate |]. intros _.
    destruct (simulation kwargs); cbn [fst snd]; split;
      try reflexivity; simpl; tauto.
Qed.

Lemma load_or_run_simulation_runs_only_on_miss_witness :
  snd (Simulation.load_or_run_simulation (Other := unit)
         (fun _ => Some 7%nat) (fun _ => Some 9%nat)
         (Simulation.mkKwargs "climb" ics_climb_example 130 tt))
  = Simulation.Return 7%nat.
Proof.
  apply (load_or_run_simulation_runs_only_on_miss nat unit
           (fun _ => Some 7%nat) (fun _ => Some 9%nat)
           (Simulation.mkKwargs "climb" ics_climb_example 130 tt));
    [simpl; tauto | reflexivity].
Defined.

(** X2.  The cache is keyed by the phase and by the initial weight and the
    reference speed rounded to integers only: two calls that agree on these
    and find the file return the same loaded result after the same actions,
    whatever their other arguments (time step, gain, cruise Mach number) and
    whatever simulation they were given. *)
Theorem load_or_run_simulation_cache_key
    (Result Other : Type) (files : string -> option Result)
    (simulation1 simulation2 : Simulation.Kwargs Other -> option Result)
    (kwargs1 kwargs2 : Simulation.Kwargs Other) (loaded : Result) :
  Simulation.kw_phase kwargs1 = Simulation.kw_phase kwargs2 ->
  NumPy.rint (Simulation.ics_w (Simulation.kw_ics kwargs1))
  = NumPy.rint (Simulation.ics_w (Simulation.kw_ics kwargs2)) ->
  NumPy.rint (Simulation.kw_v_ref kwargs1)
  = NumPy.rint (Simulation.kw_v_ref kwargs2) ->
  files (Simulation.result_file_path (Simulation.kw_phase kwargs1)
           (Simulation.ics_w (Simulation.kw_ics kwargs1))
           (Simulation.kw_v_ref kwargs1)) = Some loaded ->
  Simulation.load_or_run_simulation files simulation1 kwargs1
  = Simulation.load_or_run_simulation files simulation2 kwargs2.
Proof.
  intros Hphase Hw Hv Hfile.
  assert (Hpath :
    Simulation.result_file_path (Simulation.kw_phase kwargs2)
      (Simulation.ics_w (Simulation.kw_ics kwargs2))
      (Simulation.kw_v_ref kwargs2)
    = Simulation.result_file_path (Simulation.kw_phase kwargs1)
        (Simulation.ics_w (Simulation.kw_ics kwargs1))
        (Simulation.kw_v_ref kwargs1)).
  { unfold Simulation.result_file_path. now rewrite Hphase, Hw, Hv. }
  unfold Simulation.load_or_run_simulation.
  rewrite Hpath, <- Hphase, Hfile. reflexivity.
Qed.

Lemma rint_example_weight : NumPy.rint (36000004 / 10) = 3600000%Z.
Proof. apply rint_unique. lra. Qed.

Lemma rint_example_speed : NumPy.rint (1302 / 10) = 130%Z.
Proof. apply rint_unique. lra. Qed.

(** A climb of 3600000.4 N at 130.2 m/s is served the file of the climb of
    3600000 N at 130 m/s. *)
Lemma load_or_run_simulation_cache_key_witness :
  Simulation.load_or_run_simulation (fun _ => Some 7%nat) (fun _ => Some 8%nat)
    (Simulation.mkKwargs "climb" ics_climb_example 130 (1 / 10))
  = Simulation.load_or_run_simulation (fun _ => Some 7%nat)
      (fun _ => Some 9%nat)
      (Simulation.mkKwargs "climb"
         (Simulation.mkIcs 0 0 (36000004 / 10) 130) (1302 / 10) 1).
Proof.
  apply (load_or_run_simulation_cache_key nat R (fun _ => Some 7%nat)
           (fun _ => Some 8%nat) (fun _ => Some 9%nat) _ _ 7%nat).
  - reflexivity.
  - cbn [Simulation.kw_ics Simulation.ics_w ics_climb_example].
    rewrite rint_example_weight. apply (rint_IZR 3600000).
  - cbn [Simulation.kw_v_ref].
    rewrite rint_example_speed. apply (rint_IZR 130).
  - reflexivity.
Defined.

(** X3.  The file [serialize_and_write_results_file] writes for a phase, an
    initial weight and a reference speed is the file
    [load_or_run_simulation] looks for: after the write, a call with a valid
    phase and the same weight and speed loads the stored result and does not
    call the simulation. *)
Theorem written_result_is_loaded
    (Rs Result Other : Type) (stored : Rs -> Result)
    (files : string -> option Result) (res : Rs)
    (simulation : Simulation.Kwargs Other -> option Result)
    (kwargs : Simulation.Kwargs Other) :
  In (Simulation.kw_phase kwargs)
     ["climb"; "descent"; "descent_approach"]%string ->
  let files' :=
    Serialize.serialize_and_write_results_file Rs Result stored files res
      (Simulation.ics_w (Simulation.kw_ics kwargs))
      (Simulation.kw_v_ref kwargs) (Simulation.kw_phase kwargs) in
  let call := Simulation.load_or_run_simulation files' simulation kwargs in
  snd call = Simulation.Return (stored res)
  /\ ~ In Simulation.CallSimulation (fst call).
Proof.
  intros Hvalid files' call. unfold call.
  rewrite (load_or_run_simulation_hit Result Other files' simulation kwargs
             (stored res) Hvalid).
  - split; [reflexivity |].
    cbn [fst]. intros [H | [H | [H | [H | []]]]]; discriminate H.
  - unfold files', Serialize.serialize_and_write_results_file,
      Simulation.result_file_path.
    now rewrite String.eqb_refl.
Qed.

Lemma written_result_is_loaded_witness :
  snd (Simulation.load_or_run_simulation (Other := unit)
         (Serialize.serialize_and_write_results_file nat nat (fun n => n)
            (fun _ => None) 7%nat 3600000 130 "climb")
         (fun _ => Some 9%nat)
         (Simulation.mkKwargs "climb" ics_climb_example 130 tt))
  = Simulation.Return 7%nat.
Proof.
  apply (written_result_is_loaded nat nat unit (fun n => n) (fun _ => None)
           7%nat (fun _ => Some 9%nat)
           (Simulation.mkKwargs "climb" ics_climb_example 130 tt)).
  simpl. tauto.
Defined.

(** ** Shape of the trajectories *)

Section EulerShapeFacts.
Import Simulation.
Variable atm : Atmosphere.
Variable aero : AeroChar.
Variable time_step : R.
Variable pcm : ControlModel.
Variables k_p v_ref cruise_mach : R.
Variable phase : string.
Variable theta_trim : R.

Local Abbreviation step :=
  (euler_step atm aero time_step pcm k_p v_ref cruise_mach phase theta_trim).
Local Abbreviation iter :=
  (euler_iter atm aero time_step pcm k_p v_ref cruise_mach phase theta_trim).
Local Abbreviation loop :=
  (euler_loop atm aero time_step pcm k_p v_ref cruise_mach phase theta_trim).
Local Abbreviation trace :=
  (euler_trace atm aero time_step pcm k_p v_ref cruise_mach phase
     theta_trim).
Local Abbreviation append :=
  (euler_append pcm k_p v_ref cruise_mach phase theta_trim).

(** The result is the trace of the passes made: at least one when the loop
    has returned, all [fuel] of them when it has not. *)
Lemma euler_loop_shape (fuel : nat) (s : State) (res : Res) :
  exists n,
    (n <= fuel)%nat
    /\ outcome_res (loop fuel s res) = trace n s res
    /\ (is_returned (loop fuel s res) = true -> (1 <= n)%nat)
    /\ (is_returned (loop fuel s res) = false -> n = fuel).
Proof.
  revert s res. induction fuel as [| fuel IH]; intros s res.
  - exists 0%nat. split; [lia |]. split; [reflexivity |].
    split; [discriminate | reflexivity].
  - rewrite euler_loop_S. destruct (stop_condition phase (st_h (step s))).
    + exists 1%nat. split; [lia |]. split; [reflexivity |].
      split; [lia | discriminate].
    + destruct (IH (step s) (append res s (step s)))
        as [n [Hn [Hres [Hret Hrun]]]].
      exists (S n). split; [lia |]. split; [exact Hres |].
      split; [lia |]. intros Hr. now rewrite (Hrun Hr).
Qed.

(** A column extended by a function of the state a pass started in. *)
Lemma euler_trace_field_before (q : Res -> list R) (p : State -> R) :
  (forall res s s', q (append res s s') = q res ++ [p s]) ->
  forall n s res,
    q (trace n s res) = q res ++ map (fun k => p (iter k s)) (seq 0 n).
Proof.
  intros Hq. induction n as [| n IH]; intros s res.
  - simpl. now rewrite app_nil_r.
  - rewrite euler_trace_S, IH, Hq, <- app_assoc. f_equal.
    change (seq 0 (S n)) with (0%nat :: seq 1 n).
    rewrite <- seq_shift, map_cons, map_map. reflexivity.
Qed.

Lemma euler_trace_columns (n : nat) (s : State) (res : Res) (m : nat) :
  Forall (fun column => List.length column = m) (euler_columns res) ->
  Forall (fun column => List.length column = (m + n)%nat)
    (euler_columns (trace n s res)).
Proof.
  revert s res m. induction n as [| n IH]; intros s res m Hres.
  - rewrite Nat.add_0_r. exact Hres.
  - rewrite euler_trace_S.
    replace (m + S n)%nat with (S m + n)%nat by lia.
    apply IH. unfold euler_columns in *.
    cbn [euler_append res_t res_x res_h res_v_tas res_v_ias res_mach
         res_gamma res_fuel_burn res_aoa res_theta].
    repeat match goal with
           | H : Forall _ (_ :: _) |- _ => inversion H; clear H; subst
           end.
    repeat constructor; rewrite length_app; simpl; lia.
Qed.

Lemma euler_iter_t (n : nat) (s : State) :
  st_t (iter n s) = st_t s + INR n * time_step.
Proof.
  induction n as [| n IH].
  - simpl. ring.
  - rewrite euler_iter_S, S_INR.
    change (st_t (step (iter n s))) with (st_t (iter n s) + time_step).
    rewrite IH. ring.
Qed.

End EulerShapeFacts.

(** X4.  Whatever number of passes [simulation_euler] has made, its ten
    result columns have the same length, one entry for the initial state
    and one per pass; a returned result has made at least one pass, so it
    has at least two rows (the stop condition is first looked at after the
    first step). *)
Theorem simulation_euler_columns
    (atm : Atmosphere) (aero : AeroChar) (ics : Simulation.Ics)
    (time_step : R) (pcm : Simulation.ControlModel)
    (k_p v_ref cruise_mach : R) (phase : string) (fuel : nat) :
  let run :=
    Simulation.simulation_euler atm aero fuel ics time_step pcm k_p v_ref
      cruise_mach phase in
  exists n,
    (n <= fuel)%nat
    /\ Forall (fun column => List.length column = S n)
         (euler_columns (outcome_res run))
    /\ (is_returned run = true -> (1 <= n)%nat)
    /\ (is_returned run = false -> n = fuel).
Proof.
  intros run. unfold run, Simulation.simulation_euler.
  destruct (euler_loop_shape atm aero time_step pcm k_p v_ref cruise_mach
              phase (Simulation.euler_theta_trim atm aero ics phase) fuel
              (Simulation.euler_start atm aero ics phase)
              (Simulation.euler_init_res atm aero ics phase))
    as [n [Hn [Hres [Hret Hrun]]]].
  exists n. split; [exact Hn |]. split; [| split; assumption].
  rewrite Hres. apply (euler_trace_columns _ _ _ _ _ _ _ _ _ n _ _ 1%nat).
  repeat constructor.
Qed.

(** X22.  The time column of [simulation_euler] is [0, dt, 2 dt, ...]: the
    entry at index [k] is [k] time steps. *)
Theorem simulation_euler_time_column
    (atm : Atmosphere) (aero : AeroChar) (ics : Simulation.Ics)
    (time_step : R) (pcm : Simulation.ControlModel)
    (k_p v_ref cruise_mach : R) (phase : string) (fuel : nat) :
  exists n,
    (n <= fuel)%nat
    /\ Simulation.res_t
         (outcome_res
            (Simulation.simulation_euler atm aero fuel ics time_step pcm k_p
               v_ref cruise_mach phase))
       = map (fun k => INR k * time_step) (seq 0 (S n)).
Proof.
  unfold Simulation.simulation_euler.
  destruct (euler_loop_shape atm aero time_step pcm k_p v_ref cruise_mach
              phase (Simulation.euler_theta_trim atm aero ics phase) fuel
              (Simulation.euler_start atm aero ics phase)
              (Simulation.euler_init_res atm aero ics phase))
    as [n [Hn [Hres _]]].
  exists n. split; [exact Hn |]. rewrite Hres.
  rewrite (euler_trace_field _ _ _ _ _ _ _ _ _ Simulation.res_t
             Simulation.st_t) by reflexivity.
  change (seq 0 (S n)) with (0%nat :: seq 1 n).
  rewrite <- seq_shift, map_cons, map_map.
  cbn [Simulation.euler_init_res Simulation.res_t Simulation.euler_start
       Simulation.st_t app].
  f_equal; [simpl; ring |].
  apply map_ext. intros k. rewrite euler_iter_t.
  cbn [Simulation.euler_start Simulation.st_t]. ring.
Qed.

Section ApproachShapeFacts.
Import Simulation.
Variable atm : Atmosphere.
Variable aero : AeroChar.
Variables time_step gamma screen_h : R.

Local Abbreviation step := (approach_step atm aero time_step gamma).
Local Abbreviation iter := (approach_iter atm aero time_step gamma).
Local Abbreviation loop := (approach_loop atm aero time_step gamma screen_h).
Local Abbreviation controls := (approach_append_controls atm aero gamma).
Local Abbreviation record := (approach_append_state atm).

(** The number [n] of states recorded after the initial one, and what it
    means for a column extended after the altitude test (by a function [p]
    of the new state) and for one extended at the top of the body. *)
Lemma approach_loop_shape (fuel : nat) (s : ApproachState) (res : ApproachRes) :
  exists n,
    (n <= fuel)%nat
    /\ (forall (q : ApproachRes -> list R) (p : ApproachState -> R),
          (forall r s0, q (controls r s0) = q r) ->
          (forall r s', q (record r s') = q r ++ [p s']) ->
          q (outcome_res (loop fuel s res))
          = q res ++ map (fun k => p (iter (S k) s)) (seq 0 n))
    /\ (forall q : ApproachRes -> list R,
          (forall r s0,
              List.length (q (controls r s0)) = S (List.length (q r))) ->
          (forall r s', q (record r s') = q r) ->
          List.length (q (outcome_res (loop fuel s res)))
          = (List.length (q res)
             + (if is_returned (loop fuel s res) then S n else n))%nat)
    /\ (is_returned (loop fuel s res) = false -> n = fuel).
Proof.
  revert s res. induction fuel as [| fuel IH]; intros s res.
  - exists 0%nat. split; [lia |]. split; [| split].
    + intros q p _ _. simpl. now rewrite app_nil_r.
    + intros q _ _. simpl. lia.
    + reflexivity.
  - rewrite approach_loop_S.
    destruct (Rle_dec (ap_h (step s)) screen_h) as [Hle | Hgt].
    + exists 0%nat. split; [lia |]. split; [| split].
      * intros q p Hc _. cbn [outcome_res]. rewrite Hc. simpl.
        now rewrite app_nil_r.
      * intros q Hc _. cbn [outcome_res is_returned]. rewrite Hc. lia.
      * discriminate.
    + destruct (IH (step s) (record (controls res s) (step s)))
        as [n [Hn [Hstate [Hctl Hrun]]]].
      exists (S n). split; [lia |]. split; [| split].
      * intros q p Hc Hr. rewrite (Hstate q p Hc Hr), Hr, Hc, <- app_assoc.
        f_equal. change (seq 0 (S n)) with (0%nat :: seq 1 n).
        rewrite <- seq_shift, map_cons, map_map. reflexivity.
      * intros q Hc Hr. rewrite (Hctl q Hc Hr), Hr, Hc.
        destruct (is_returned _); lia.
      * intros Hr. now rewrite (Hrun Hr).
Qed.

(** While every step stays above the screen height the loop goes on. *)
Lemma approach_loop_running (fuel : nat) (s : ApproachState)
    (res : ApproachRes) :
  (forall k, (k < fuel)%nat -> ap_h (iter (S k) s) > screen_h) ->
  is_returned (loop fuel s res) = false.
Proof.
  revert s res. induction fuel as [| fuel IH]; intros s res Hno.
  - reflexivity.
  - rewrite approach_loop_S.
    destruct (Rle_dec (ap_h (step s)) screen_h) as [Hle | Hgt].
    + pose proof (Hno 0%nat ltac:(lia)) as H0.
      change (iter 1 s) with (step s) in H0. lra.
    + apply IH. intros k Hk. apply (Hno (S k)). lia.
Qed.

Lemma approach_iter_x (n : nat) (s : ApproachState) :
  ap_x (iter n s) = ap_x s + INR n * (ap_v_tas s * cos gamma * time_step).
Proof.
  induction n as [| n IH].
  - simpl. ring.
  - rewrite approach_iter_S, S_INR.
    change (ap_x (step (iter n s)))
      with (ap_x (iter n s) + ap_v_tas (iter n s) * cos gamma * time_step).
    rewrite approach_iter_v_tas, IH. ring.
Qed.

Lemma approach_iter_t (n : nat) (s : ApproachState) :
  ap_t (iter n s) = ap_t s + INR n * time_step.
Proof.
  induction n as [| n IH].
  - simpl. ring.
  - rewrite approach_iter_S, S_INR.
    change (ap_t (step (iter n s))) with (ap_t (iter n s) + time_step).
    rewrite IH. ring.
Qed.

End ApproachShapeFacts.

(** Every real number is exceeded by some natural number. *)
Lemma nat_above (x : R) : exists n, x <= INR n.
Proof.
  destruct (archimed x) as [Hup _].
  exists (Z.to_nat (up x)).
  destruct (Z_le_gt_dec 0 (up x)) as [Hpos | Hneg].
  - rewrite INR_IZR_INZ, Z2Nat.id by exact Hpos. lra.
  - assert (Hz : IZR (up x) < 0) by (apply IZR_lt; lia).
    pose proof (pos_INR (Z.to_nat (up x))). lra.
Qed.

(** X5.  In a returned descent-approach result all nine columns have the
    same length: the three columns appended at the top of the loop body
    ("aoa", "theta", "thrust") receive their entry for the pass that breaks
    out, which makes up for the initial entry of the six others.  While the
    loop runs they are one entry short. *)
Theorem simulation_descent_approach_euler_columns
    (atm : Atmosphere) (aero : AeroChar) (ics : Simulation.Ics)
    (time_step v_ref glideslope_angle screen_h : R) (fuel : nat) :
  let run :=
    Simulation.simulation_descent_approach_euler atm aero fuel ics time_step
      v_ref glideslope_angle screen_h in
  exists n,
    (n <= fuel)%nat
    /\ Forall (fun column => List.length column = S n)
         (approach_state_columns (outcome_res run))
    /\ Forall (fun column =>
                 List.length column = if is_returned run then S n else n)
         (approach_control_columns (outcome_res run)).
Proof.
  intros run. unfold run, Simulation.simulation_descent_approach_euler.
  destruct (approach_loop_shape atm aero time_step (-1 * glideslope_angle)
              screen_h fuel (Simulation.approach_start atm ics v_ref)
              (Simulation.approach_init_res atm ics v_ref))
    as [n [Hn [Hstate [Hctl _]]]].
  exists n. split; [exact Hn |]. split.
  - unfold approach_state_columns.
    repeat constructor;
      match goal with
      | |- List.length (?q _) = _ =>
          rewrite (Hstate q (fun s => last (q (Simulation.approach_append_state
                      atm (Simulation.approach_init_res atm ics v_ref) s)) 0))
      end;
      try (rewrite length_app, length_map, length_seq; reflexivity);
      try reflexivity;
      intros r s'; cbn; now rewrite last_last.
  - unfold approach_control_columns.
    repeat constructor;
      match goal with
      | |- List.length (?q _) = _ => rewrite (Hctl q)
      end;
      try reflexivity;
      intros r s0; cbn; rewrite length_app; simpl; lia.
Qed.

(** ** The descent approach is a straight line *)

(** X6.  The descent approach flies a straight line at constant speed: the
    row of index [k] is recorded at time [k dt], at the altitude
    [h0 - k * v_ref * sin(glideslope) * dt] and at the distance
    [x0 + k * v_ref * cos(glideslope) * dt]. *)
Theorem simulation_descent_approach_euler_straight_line
    (atm : Atmosphere) (aero : AeroChar) (ics : Simulation.Ics)
    (time_step v_ref glideslope_angle screen_h : R) (fuel : nat) :
  let res :=
    outcome_res
      (Simulation.simulation_descent_approach_euler atm aero fuel ics
         time_step v_ref glideslope_angle screen_h) in
  exists n,
    (n <= fuel)%nat
    /\ Simulation.ares_t res = map (fun k => INR k * time_step) (seq 0 (S n))
    /\ Simulation.ares_h res
       = map (fun k =>
                Simulation.ics_h ics
                - INR k * (v_ref * sin glideslope_angle * time_step))
           (seq 0 (S n))
    /\ Simulation.ares_x res
       = map (fun k =>
                Simulation.ics_x ics
                + INR k * (v_ref * cos glideslope_angle * time_step))
           (seq 0 (S n)).
Proof.
  intros res. unfold res, Simulation.simulation_descent_approach_euler.
  destruct (approach_loop_shape atm aero time_step (-1 * glideslope_angle)
              screen_h fuel (Simulation.approach_start atm ics v_ref)
              (Simulation.approach_init_res atm ics v_ref))
    as [n [Hn [Hstate _]]].
  assert (Hsin : sin (-1 * glideslope_angle) = - sin glideslope_angle).
  { replace (-1 * glideslope_angle) with (- glideslope_angle) by ring.
    apply sin_neg. }
  assert (Hcos : cos (-1 * glideslope_angle) = cos glideslope_angle).
  { replace (-1 * glideslope_angle) with (- glideslope_angle) by ring.
    apply cos_neg. }
  exists n. split; [exact Hn |].
  change (seq 0 (S n)) with (0%nat :: seq 1 n).
  rewrite <- seq_shift, !map_cons, !map_map.
  split; [| split].
  - rewrite (Hstate Simulation.ares_t Simulation.ap_t) by reflexivity.
    cbn [Simulation.approach_init_res Simulation.ares_t
         Simulation.approach_start Simulation.ap_t app].
    f_equal; [simpl; ring |].
    apply map_ext. intros k. rewrite approach_iter_t.
    cbn [Simulation.approach_start Simulation.ap_t]. ring.
  - rewrite (Hstate Simulation.ares_h Simulation.ap_h) by reflexivity.
    cbn [Simulation.approach_init_res Simulation.ares_h
         Simulation.approach_start Simulation.ap_h app].
    f_equal; [simpl; ring |].
    apply map_ext. intros k. rewrite approach_iter_h, Hsin.
    cbn [Simulation.approach_start Simulation.ap_h Simulation.ap_v_tas].
    ring.
  - rewrite (Hstate Simulation.ares_x Simulation.ap_x) by reflexivity.
    cbn [Simulation.approach_init_res Simulation.ares_x
         Simulation.approach_start Simulation.ap_x app].
    f_equal; [simpl; ring |].
    apply map_ext. intros k. rewrite approach_iter_x, Hcos.
    cbn [Simulation.approach_start Simulation.ap_x Simulation.ap_v_tas].
    ring.
Qed.



(** ** More on the airspeed conversions *)

Section AirspeedMoreFacts.
Import Airspeed.
Variable atm : Atmosphere.
Variable h : R.
Hypothesis rho_sl_pos : 0 < density atm 0.
Hypothesis p_sl_pos : 0 < pressure atm 0.
Hypothesis rho_h_pos : 0 < density atm h.
Hypothesis p_h_pos : 0 < pressure atm h.

(** Without the roundings [cas2tas] undoes [tas2cas] as well. *)
Lemma cas2tas_tas2cas_exact (y : R) :
  0 <= y ->
  cas2tas_with atm (fun v => v) (tas2cas_with atm (fun v => v) y h) h = y.
Proof.
  intros Hy.
  assert (Hrh : 0 < density atm h / pressure atm h)
    by (apply Rdiv_lt_0_compat; assumption).
  assert (Hd : 0 < pressure atm h / pressure atm 0)
    by (apply Rdiv_lt_0_compat; assumption).
  set (q := 1 + / 7 * (density atm h / pressure atm h) * y ^ 2).
  assert (Hq : 1 <= q) by (unfold q; pose proof (pow2_ge_0 y); nra).
  assert (Hq2 : 1 <= Rpower q (7 / 2)) by (apply Rpower_ge_1; lra).
  set (B := pressure atm h / pressure atm 0 * (Rpower q (7 / 2) - 1) + 1).
  assert (HB : 1 <= B) by (unfold B; nra).
  assert (HB2 : 1 <= Rpower B (1 / (7 / 2))) by (apply Rpower_ge_1; lra).
  assert (Hcas : tas2cas_with atm (fun v => v) y h ^ 2
                 = 7 * (pressure atm 0 / density atm 0)
                   * (Rpower B (1 / (7 / 2)) - 1)).
  { unfold tas2cas_with, NumPy.power. cbv zeta. rewrite g_r_value.
    replace (2 * (7 / 2)) with 7 by field. fold q. fold B.
    apply pow2_sqrt.
    assert (0 < pressure atm 0 / density atm 0)
      by (apply Rdiv_lt_0_compat; assumption).
    nra. }
  unfold cas2tas_with at 1. unfold NumPy.power. cbv zeta.
  rewrite g_r_value, Hcas.
  replace (1 + / (2 * (7 / 2)) * (density atm 0 / pressure atm 0)
               * (7 * (pressure atm 0 / density atm 0)
                  * (Rpower B (1 / (7 / 2)) - 1)))
    with (Rpower B (1 / (7 / 2))) by (field; split; lra).
  rewrite Rpower_root_inv by lra.
  replace (1 + pressure atm 0 / pressure atm h * (B - 1))
    with (Rpower q (7 / 2)) by (unfold B; field; split; lra).
  rewrite Rpower_root by lra.
  replace (2 * (7 / 2) * (pressure atm h / density atm h) * (q - 1))
    with (y ^ 2) by (unfold q; field; split; lra).
  apply sqrt_pow2, Hy.
Qed.

(** The unrounded [cas2tas] grows with the calibrated airspeed. *)
Lemma cas2tas_exact_mono (v1 v2 : R) :
  0 <= v1 <= v2 ->
  cas2tas_with atm (fun v => v) v1 h <= cas2tas_with atm (fun v => v) v2 h.
Proof.
  intros Hv.
  assert (Hr0 : 0 < density atm 0 / pressure atm 0)
    by (apply Rdiv_lt_0_compat; assumption).
  assert (Hrh : 0 < pressure atm h / density atm h)
    by (apply Rdiv_lt_0_compat; assumption).
  assert (Hd : 0 < pressure atm 0 / pressure atm h)
    by (apply Rdiv_lt_0_compat; assumption).
  assert (Hsq : v1 ^ 2 <= v2 ^ 2) by nra.
  unfold cas2tas_with, NumPy.power. cbv zeta. rewrite g_r_value.
  set (q v := 1 + / (2 * (7 / 2)) * (density atm 0 / pressure atm 0) * v ^ 2).
  assert (Hq1 : 1 <= q v1) by (unfold q; pose proof (pow2_ge_0 v1); nra).
  assert (Hq12 : q v1 <= q v2) by (unfold q; nra).
  assert (Hpw : Rpower (q v1) (7 / 2) <= Rpower (q v2) (7 / 2))
    by (apply Rle_Rpower_l; lra).
  assert (Hpw1 : 1 <= Rpower (q v1) (7 / 2))
    by (apply Rpower_ge_1; lra).
  set (A v := 1 + pressure atm 0 / pressure atm h * (Rpower (q v) (7 / 2) - 1)).
  assert (HA1 : 1 <= A v1) by (unfold A; nra).
  assert (HA12 : A v1 <= A v2) by (unfold A; nra).
  assert (Hrt : Rpower (A v1) (1 / (7 / 2)) <= Rpower (A v2) (1 / (7 / 2)))
    by (apply Rle_Rpower_l; lra).
  apply sqrt_le_1_alt. fold (q v1) (q v2) (A v1) (A v2). nra.
Qed.

End AirspeedMoreFacts.

(** X8.  Without the roundings the two conversions are inverse to each
    other in both directions on the non-negative speeds: also
    [cas2tas (tas2cas y)] is [y], and the rounded [cas2tas] moves the exact
    value by at most 0.005. *)
Theorem cas2tas_tas2cas_round_trip (atm : Atmosphere) (y h : R) :
  0 < density atm 0 -> 0 < pressure atm 0 ->
  0 < density atm h -> 0 < pressure atm h ->
  0 <= y ->
  let exact_cas := Airspeed.tas2cas_with atm (fun v => v) y h in
  Airspeed.cas2tas_with atm (fun v => v) exact_cas h = y
  /\ Rabs (Airspeed.cas2tas atm exact_cas h - y) <= 5 / 1000.
Proof.
  intros Hr0 Hp0 Hrh Hph Hy exact_cas.
  assert (Hexact : Airspeed.cas2tas_with atm (fun v => v) exact_cas h = y)
    by (apply cas2tas_tas2cas_exact; assumption).
  split; [exact Hexact |].
  change (Airspeed.cas2tas atm exact_cas h)
    with (NumPy.round
            (Airspeed.cas2tas_with atm (fun v => v) exact_cas h) 2).
  rewrite Hexact. pose proof (round_error y 2) as He. simpl in He. lra.
Qed.

Lemma cas2tas_tas2cas_round_trip_witness :
  Airspeed.cas2tas_with atm_sea_level (fun v => v)
    (Airspeed.tas2cas_with atm_sea_level (fun v => v) 250 9000) 9000
  = 250.
Proof.
  apply (cas2tas_tas2cas_round_trip atm_sea_level 250 9000); simpl; lra.
Defined.

(** X9.  Both conversions grow with the speed and never return a negative
    speed: a larger calibrated airspeed gives no smaller true airspeed, and
    conversely. *)
Theorem airspeed_conversions_monotone (atm : Atmosphere) (v1 v2 h : R) :
  0 < density atm 0 -> 0 < pressure atm 0 ->
  0 < density atm h -> 0 < pressure atm h ->
  0 <= v1 <= v2 ->
  0 <= Airspeed.cas2tas atm v1 h <= Airspeed.cas2tas atm v2 h
  /\ 0 <= Airspeed.tas2cas atm v1 h <= Airspeed.tas2cas atm v2 h.
Proof.
  intros Hr0 Hp0 Hrh Hph Hv. split; split.
  - apply round_nonneg. unfold Airspeed.cas2tas_with. apply sqrt_pos.
  - apply round_mono. apply cas2tas_exact_mono; assumption.
  - apply round_nonneg. apply tas2cas_exact_nonneg.
  - apply round_mono. apply tas2cas_exact_mono; assumption.
Qed.

Lemma airspeed_conversions_monotone_witness :
  0 <= Airspeed.cas2tas atm_sea_level 100 5000
  <= Airspeed.cas2tas atm_sea_level 130 5000.
Proof.
  apply (airspeed_conversions_monotone atm_sea_level 100 130 5000);
    simpl; lra.
Defined.

(** X10.  At altitude zero calibrated and true airspeed coincide up to the
    rounding: both conversions return a speed within 0.005 of their
    argument, and the argument itself when it has no more than two
    decimals. *)
Theorem airspeed_conversions_at_sea_level (atm : Atmosphere) (v : R) :
  0 < density atm 0 -> 0 < pressure atm 0 -> 0 <= v ->
  Rabs (Airspeed.cas2tas atm v 0 - v) <= 5 / 1000
  /\ Rabs (Airspeed.tas2cas atm v 0 - v) <= 5 / 1000
  /\ (forall z : Z, v = IZR z / 10 ^ 2 ->
        Airspeed.cas2tas atm v 0 = v /\ Airspeed.tas2cas atm v 0 = v).
Proof.
  intros Hr0 Hp0 Hv.
  assert (Hc : Airspeed.cas2tas atm v 0 = NumPy.round v 2).
  { change (Airspeed.cas2tas atm v 0)
      with (NumPy.round (Airspeed.cas2tas_with atm (fun y => y) v 0) 2).
    now rewrite cas2tas_exact_sea_level. }
  assert (Ht : Airspeed.tas2cas atm v 0 = NumPy.round v 2).
  { change (Airspeed.tas2cas atm v 0)
      with (NumPy.round (Airspeed.tas2cas_with atm (fun y => y) v 0) 2).
    now rewrite tas2cas_exact_sea_level. }
  pose proof (round_error v 2) as He. simpl in He.
  split; [rewrite Hc; lra |]. split; [rewrite Ht; lra |].
  intros z Hz. rewrite Hc, Ht, Hz, round_decimal. split; reflexivity.
Qed.

Lemma airspeed_conversions_at_sea_level_witness :
  Airspeed.cas2tas atm_sea_level (13025 / 100) 0 = 13025 / 100
  /\ Airspeed.tas2cas atm_sea_level (13025 / 100) 0 = 13025 / 100.
Proof.
  apply (airspeed_conversions_at_sea_level atm_sea_level (13025 / 100))
    with (z := 13025%Z); simpl; lra.
Defined.

(** X11.  A speed of zero converts to zero: calibrated to true airspeed,
    true to calibrated, and both Mach numbers, at any altitude where the
    atmosphere properties the formulas divide by are not zero. *)
Theorem airspeed_conversions_of_zero (atm : Atmosphere) (h : R) :
  pressure atm 0 <> 0 -> density atm 0 <> 0 ->
  pressure atm h <> 0 -> density atm h <> 0 ->
  speed_of_sound atm h <> 0 ->
  Airspeed.cas2tas atm 0 h = 0
  /\ Airspeed.tas2cas atm 0 h = 0
  /\ Airspeed.cas2mach atm 0 h = 0
  /\ Airspeed.tas2mach atm 0 h = 0.
Proof.
  intros Hp0 Hr0 Hph Hrh Ha.
  assert (Hc : Airspeed.cas2tas atm 0 h = 0).
  { unfold Airspeed.cas2tas, Airspeed.cas2tas_with, NumPy.power. cbv zeta.
    replace (1 + / (2 * (Airspeed.gamma_air / (Airspeed.gamma_air - 1)))
                 * (density atm 0 / pressure atm 0) * 0 ^ 2)
      with 1 by ring.
    rewrite Rpower_base_1.
    replace (1 + pressure atm 0 / pressure atm h * (1 - 1)) with 1 by ring.
    rewrite Rpower_base_1.
    replace (2 * (Airspeed.gamma_air / (Airspeed.gamma_air - 1))
             * (pressure atm h / density atm h) * (1 - 1)) with 0 by ring.
    rewrite sqrt_0. apply round_0. }
  assert (Ht : Airspeed.tas2cas atm 0 h = 0).
  { unfold Airspeed.tas2cas, Airspeed.tas2cas_with, NumPy.power. cbv zeta.
    replace (1 + / (2 * (Airspeed.gamma_air / (Airspeed.gamma_air - 1)))
                 * (density atm h / pressure atm h) * 0 ^ 2)
      with 1 by ring.
    rewrite Rpower_base_1.
    replace (pressure atm h / pressure atm 0 * (1 - 1) + 1) with 1 by ring.
    rewrite Rpower_base_1.
    replace (2 * (Airspeed.gamma_air / (Airspeed.gamma_air - 1))
             * (pressure atm 0 / density atm 0) * (1 - 1)) with 0 by ring.
    rewrite sqrt_0. apply round_0. }
  split; [exact Hc |]. split; [exact Ht |]. split.
  - unfold Airspeed.cas2mach. cbv zeta. rewrite Hc.
    unfold Rdiv. rewrite Rmult_0_l. apply round_0.
  - unfold Airspeed.tas2mach. cbv zeta.
    unfold Rdiv. rewrite Rmult_0_l. apply round_0.
Qed.

Lemma airspeed_conversions_of_zero_witness :
  Airspeed.cas2tas atm_sea_level 0 8000 = 0.
Proof.
  apply (airspeed_conversions_of_zero atm_sea_level 8000); simpl; lra.
Defined.

(** ** Thrust, fuel and weight along a run *)

Section ThrustLapseFacts.
Import ThrustModel.

Lemma sqrt_lower (a b : R) : 0 <= a -> a * a <= b -> a <= sqrt b.
Proof.
  intros Ha Hab. rewrite <- (sqrt_square a Ha). now apply sqrt_le_1_alt.
Qed.

(** The lapse polynomials between a vacuum and sea-level pressure. *)
Lemma lapse_coefficients_bounds (delta : R) :
  0 < delta <= 1 ->
  472 / 10000 + 9528 / 10000 * delta <= coeff_a delta
  /\ delta <= coeff_x delta
  /\ 0 <= coeff_z delta <= 13003 / 10000 * delta.
Proof.
  intros Hd. unfold coeff_a, coeff_x, coeff_z.
  pose proof (pow2_ge_0 (delta - 9739 / 10000)) as Hsq.
  assert (Hd2 : 0 < delta ^ 2 <= delta) by nra.
  assert (Hd3 : 0 < delta ^ 3 <= delta ^ 2) by nra.
  repeat split; nra.
Qed.

(** With the bypass ratio 5 the lapse factor is never negative, at any Mach
    number, where the pressure ratio lies in (0, 1]. *)
Lemma thrust_lapse_nonneg (delta mach : R) :
  0 < delta <= 1 ->
  0 <= coeff_a delta
       - coeff_z delta * mach * (377 / 1000 * (1 + 5))
         / sqrt ((6375 / 10000 + 604 / 10000 * 5) * (1 + 82 / 100 * 5))
       + (23 / 100 + 19 / 100 * sqrt 5) * coeff_x delta * mach ^ 2.
Proof.
  intros Hd.
  destruct (lapse_coefficients_bounds delta Hd) as [Ha [Hx [Hz0 Hz]]].
  set (s1 := sqrt ((6375 / 10000 + 604 / 10000 * 5) * (1 + 82 / 100 * 5))).
  assert (Hs1 : 2188 / 1000 <= s1) by (apply sqrt_lower; lra).
  assert (Hs5 : 2236 / 1000 <= sqrt 5) by (apply sqrt_lower; lra).
  set (k1 := 377 / 1000 * (1 + 5) / s1).
  assert (Hk1 : 0 <= k1 <= 10339 / 10000).
  { unfold k1. split.
    - apply Rmult_le_pos; [lra |]. apply Rlt_le, Rinv_0_lt_compat. lra.
    - apply Rmult_le_reg_r with s1; [lra |].
      unfold Rdiv. rewrite Rmult_assoc, Rinv_l by lra. nra. }
  set (u := (23 / 100 + 19 / 100 * sqrt 5) * coeff_x delta).
  set (v := k1 * coeff_z delta).
  replace (coeff_z delta * mach * (377 / 1000 * (1 + 5)) / s1)
    with (v * mach) by (unfold v, k1; field; lra).
  replace ((23 / 100 + 19 / 100 * sqrt 5) * coeff_x delta * mach ^ 2)
    with (u * mach ^ 2) by (unfold u; ring).
  assert (Hu : 65 / 100 * delta <= u) by (unfold u; nra).
  assert (Hv : 0 <= v <= 135 / 100 * delta) by (unfold v; nra).
  assert (Hvv : v * v <= 183 / 100 * (delta * delta)) by nra.
  assert (Hua : 183 / 100 * (delta * delta) <= 4 * (u * coeff_a delta)).
  { assert (95 / 100 * delta <= coeff_a delta) by lra.
    assert (65 / 100 * delta * (95 / 100 * delta) <= u * coeff_a delta)
      by (apply Rmult_le_compat; nra).
    nra. }
  assert (Hsq : 0 <= (2 * u * mach - v) ^ 2) by apply pow2_ge_0.
  assert (Hupos : 0 < u) by lra.
  assert (H4 : 0 <= 4 * u * (coeff_a delta - v * mach + u * mach ^ 2))
    by nra.
  nra.
Qed.

End ThrustLapseFacts.

(** X12.  With the engine constants (270 kN, bypass ratio 5) the maximum
    thrust is never negative, at any Mach number, wherever the pressure is
    positive and at most the sea-level pressure. *)
Theorem max_thrust_model_nonneg (atm : Atmosphere) (h mach : R) :
  0 < pressure atm h <= pressure atm 0 ->
  0 <= ThrustModel.max_thrust_model atm Const.Max_Thrust_SE_SL Const.BPR h
         mach.
Proof.
  intros Hp. unfold ThrustModel.max_thrust_model, Const.BPR,
    Const.Max_Thrust_SE_SL. cbv zeta.
  apply round_nonneg. apply Rmult_le_pos; [| lra].
  apply thrust_lapse_nonneg. split.
  - apply Rdiv_lt_0_compat; lra.
  - apply Rmult_le_reg_r with (pressure atm 0); [lra |].
    unfold Rdiv. rewrite Rmult_assoc, Rinv_l by lra. lra.
Qed.

Lemma max_thrust_model_nonneg_witness :
  0 <= ThrustModel.max_thrust_model atm_sea_level Const.Max_Thrust_SE_SL
         Const.BPR 9000 (85 / 100).
Proof.
  apply (max_thrust_model_nonneg atm_sea_level 9000 (85 / 100)).
  simpl. lra.
Defined.

(** X13.  The fuel flow grows with the thrust (for a Mach number of at
    least -1) and is zero at zero thrust. *)
Theorem fuel_flow_monotone (atm : Atmosphere) (thrust1 thrust2 mach h : R) :
  -1 <= mach -> thrust1 <= thrust2 ->
  ThrustModel.fuel_flow atm thrust1 mach h
  <= ThrustModel.fuel_flow atm thrust2 mach h
  /\ ThrustModel.fuel_flow atm 0 mach h = 0.
Proof.
  intros Hm Ht. unfold ThrustModel.fuel_flow. cbv zeta. split.
  - apply round_mono. apply Rmult_le_compat_l; [| exact Ht].
    apply tsfc_nonneg, Hm.
  - rewrite Rmult_0_r. apply round_0.
Qed.

Lemma fuel_flow_monotone_witness :
  ThrustModel.fuel_flow atm_sea_level 1000 (1 / 2) 3000
  <= ThrustModel.fuel_flow atm_sea_level 2000 (1 / 2) 3000.
Proof.
  apply (fuel_flow_monotone atm_sea_level 1000 2000 (1 / 2) 3000); lra.
Defined.

Section EulerWeightFacts.
Import Simulation.
Variable atm : Atmosphere.
Variable aero : AeroChar.
Variable time_step : R.
Variable pcm : ControlModel.
Variables k_p v_ref cruise_mach : R.
Variable phase : string.
Variable theta_trim : R.
Hypothesis time_step_nonneg : 0 <= time_step.
Hypothesis sound_pos : forall h, 0 < speed_of_sound atm h.

Local Abbreviation step :=
  (euler_step atm aero time_step pcm k_p v_ref cruise_mach phase theta_trim).
Local Abbreviation iter :=
  (euler_iter atm aero time_step pcm k_p v_ref cruise_mach phase theta_trim).

Lemma cas2mach_nonneg (v h : R) : 0 <= Airspeed.cas2mach atm v h.
Proof.
  unfold Airspeed.cas2mach. cbv zeta. apply round_nonneg.
  apply Rmult_le_pos.
  - apply round_nonneg. unfold Airspeed.cas2tas_with. apply sqrt_pos.
  - apply Rlt_le, Rinv_0_lt_compat, sound_pos.
Qed.

Lemma euler_iter_mach_nonneg (n : nat) (s : State) :
  0 <= st_mach s -> 0 <= st_mach (iter n s).
Proof.
  intros Hs. destruct n as [| n]; [exact Hs |].
  rewrite euler_iter_S. apply cas2mach_nonneg.
Qed.

Lemma thrust_app_perc_pos : 0 < thrust_app_perc phase.
Proof. unfold thrust_app_perc. destruct (String.eqb phase "climb"); lra. Qed.

Lemma euler_fuel_flow_nonneg (s : State) :
  0 < pressure atm (st_h s) <= pressure atm 0 -> 0 <= st_mach s ->
  0 <= euler_fuel_flow atm phase s.
Proof.
  intros Hp Hm. unfold euler_fuel_flow.
  apply fuel_flow_nonneg; [| lra].
  unfold kN_to_N, euler_inst_thrust.
  pose proof thrust_app_perc_pos as Hperc.
  assert (Hmax : 0 <= ThrustModel.max_thrust_model atm Const.Max_Thrust_SE_SL
                        Const.BPR (st_h s) (st_mach s)).
  { unfold ThrustModel.max_thrust_model, Const.BPR, Const.Max_Thrust_SE_SL.
    cbv zeta. apply round_nonneg. apply Rmult_le_pos; [| lra].
    apply thrust_lapse_nonneg. split.
    - apply Rdiv_lt_0_compat; lra.
    - apply Rmult_le_reg_r with (pressure atm 0); [lra |].
      unfold Rdiv. rewrite Rmult_assoc, Rinv_l by lra. lra. }
  nra.
Qed.

(** Weight and burnt fuel of a run that stays, for its first [n] passes,
    where the pressure is positive and at most the sea-level pressure. *)
Lemma euler_iter_weight (n : nat) (s : State) :
  0 <= st_mach s ->
  (forall k, (k < n)%nat ->
             0 < pressure atm (st_h (iter k s)) <= pressure atm 0) ->
  (forall k, (k < n)%nat -> st_w (iter (S k) s) <= st_w (iter k s))
  /\ st_w (iter n s) - st_w s
     = - (Const.Grav_const
          * ((st_m_f_burnt (iter n s) - st_m_f_burnt s) / 1000)).
Proof.
  intros Hm. induction n as [| n IH]; intros Hp.
  - split; [intros k Hk; lia |].
    cbn [euler_iter]. unfold Const.Grav_const. lra.
  - destruct IH as [IHle IHeq]; [intros k Hk; apply Hp; lia |].
    assert (Hflow : 0 <= euler_fuel_flow atm phase (iter n s)).
    { apply euler_fuel_flow_nonneg;
        [apply Hp; lia | apply euler_iter_mach_nonneg, Hm]. }
    assert (Hprod : 0 <= euler_fuel_flow atm phase (iter n s) * time_step)
      by (apply Rmult_le_pos; assumption).
    split.
    + intros k Hk. destruct (Nat.eq_dec k n) as [-> | Hne];
        [| apply IHle; lia].
      rewrite euler_iter_S, euler_step_weight.
      pose proof (weight_change_nonpos _ _ Hflow time_step_nonneg). lra.
    + rewrite euler_iter_S, euler_step_weight, euler_step_fuel.
      rewrite (Rabs_pos_eq _ Hprod).
      unfold mg_m_s2_to_N, mg_to_g in *. lra.
Qed.

End EulerWeightFacts.

(** X14.  In [simulation_euler] the weight never rises from one pass to the
    next, for a non-negative time step and as long as the run stays where
    the pressure is positive and at most the sea-level pressure (the engines
    then deliver a non-negative thrust). *)
Theorem simulation_euler_weight_non_increasing
    (atm : Atmosphere) (aero : AeroChar) (ics : Simulation.Ics)
    (time_step : R) (pcm : Simulation.ControlModel)
    (k_p v_ref cruise_mach : R) (phase : string) (n : nat) :
  let state_at k :=
    Simulation.euler_iter atm aero time_step pcm k_p v_ref cruise_mach phase
      (Simulation.euler_theta_trim atm aero ics phase) k
      (Simulation.euler_start atm aero ics phase) in
  0 <= time_step ->
  (forall h, 0 < speed_of_sound atm h) ->
  (forall k, (k < n)%nat ->
             0 < pressure atm (Simulation.st_h (state_at k))
             <= pressure atm 0) ->
  forall k, (k < n)%nat ->
            Simulation.st_w (state_at (S k)) <= Simulation.st_w (state_at k).
Proof.
  intros state_at Hdt Hsound Hp.
  apply (euler_iter_weight atm aero time_step pcm k_p v_ref cruise_mach
           phase _ Hdt Hsound n); [| exact Hp].
  apply cas2mach_nonneg, Hsound.
Qed.

Lemma simulation_euler_weight_non_increasing_witness :
  Simulation.st_w
    (Simulation.euler_iter atm_sea_level (aero_polar atm_sea_level) 1
       (PilotControl.pilot_pitch_control atm_sea_level) (1 / 100) 130
       (85 / 100) "climb"
       (Simulation.euler_theta_trim atm_sea_level (aero_polar atm_sea_level)
          ics_climb_example "climb") 3
       (Simulation.euler_start atm_sea_level (aero_polar atm_sea_level)
          ics_climb_example "climb"))
  <= Simulation.st_w
       (Simulation.euler_iter atm_sea_level (aero_polar atm_sea_level) 1
          (PilotControl.pilot_pitch_control atm_sea_level) (1 / 100) 130
          (85 / 100) "climb"
          (Simulation.euler_theta_trim atm_sea_level
             (aero_polar atm_sea_level) ics_climb_example "climb") 2
          (Simulation.euler_start atm_sea_level (aero_polar atm_sea_level)
             ics_climb_example "climb")).
Proof.
  apply (simulation_euler_weight_non_increasing atm_sea_level
           (aero_polar atm_sea_level) ics_climb_example 1
           (PilotControl.pilot_pitch_control atm_sea_level) (1 / 100) 130
           (85 / 100) "climb" 5);
    [lra | intros h; simpl; lra | intros k _; simpl; lra | lia].
Defined.

(** X15.  Under the same conditions the weight lost after [n] passes of
    [simulation_euler] is the weight of the fuel burnt: the gravitational
    constant times the burnt mass (recorded in grams) in kilograms. *)
Theorem simulation_euler_weight_is_fuel_burnt
    (atm : Atmosphere) (aero : AeroChar) (ics : Simulation.Ics)
    (time_step : R) (pcm : Simulation.ControlModel)
    (k_p v_ref cruise_mach : R) (phase : string) (n : nat) :
  let state_at k :=
    Simulation.euler_iter atm aero time_step pcm k_p v_ref cruise_mach phase
      (Simulation.euler_theta_trim atm aero ics phase) k
      (Simulation.euler_start atm aero ics phase) in
  0 <= time_step ->
  (forall h, 0 < speed_of_sound atm h) ->
  (forall k, (k < n)%nat ->
             0 < pressure atm (Simulation.st_h (state_at k))
             <= pressure atm 0) ->
  Simulation.st_w (state_at n)
  = Simulation.ics_w ics
    - Const.Grav_const * (Simulation.st_m_f_burnt (state_at n) / 1000).
Proof.
  intros state_at Hdt Hsound Hp.
  destruct (euler_iter_weight atm aero time_step pcm k_p v_ref cruise_mach
              phase (Simulation.euler_theta_trim atm aero ics phase) Hdt
              Hsound n (Simulation.euler_start atm aero ics phase))
    as [_ Heq]; [apply cas2mach_nonneg, Hsound | exact Hp |].
  fold (state_at n) in Heq.
  cbn [Simulation.euler_start Simulation.st_w Simulation.st_m_f_burnt]
    in Heq.
  lra.
Qed.

Lemma simulation_euler_weight_is_fuel_burnt_witness :
  Simulation.st_w
    (Simulation.euler_iter atm_sea_level (aero_polar atm_sea_level) 1
       (PilotControl.pilot_pitch_control atm_sea_level) (1 / 100) 130
       (85 / 100) "climb"
       (Simulation.euler_theta_trim atm_sea_level (aero_polar atm_sea_level)
          ics_climb_example "climb") 3
       (Simulation.euler_start atm_sea_level (aero_polar atm_sea_level)
          ics_climb_example "climb"))
  = Simulation.ics_w ics_climb_example
    - Const.Grav_const
      * (Simulation.st_m_f_burnt
           (Simulation.euler_iter atm_sea_level (aero_polar atm_sea_level) 1
              (PilotControl.pilot_pitch_control atm_sea_level) (1 / 100) 130
              (85 / 100) "climb"
              (Simulation.euler_theta_trim atm_sea_level
                 (aero_polar atm_sea_level) ics_climb_example "climb") 3
              (Simulation.euler_start atm_sea_level
                 (aero_polar atm_sea_level) ics_climb_example "climb"))
         / 1000).
Proof.
  apply (simulation_euler_weight_is_fuel_burnt atm_sea_level
           (aero_polar atm_sea_level) ics_climb_example 1
           (PilotControl.pilot_pitch_control atm_sea_level) (1 / 100) 130
           (85 / 100) "climb" 3);
    [lra | intros h; simpl; lra | intros k _; simpl; lra].
Defined.

(** X16.  The burnt fuel never decreases from one pass to the next, in
    either simulation and whatever the sign of the fuel flow and of the time
    step: each pass adds an absolute value. *)
Theorem fuel_burnt_never_decreases
    (atm : Atmosphere) (aero : AeroChar) (time_step : R)
    (pcm : Simulation.ControlModel) (k_p v_ref cruise_mach : R)
    (phase : string) (theta_trim gamma : R) :
  (forall s,
      Simulation.st_m_f_burnt s
      <= Simulation.st_m_f_burnt
           (Simulation.euler_step atm aero time_step pcm k_p v_ref
              cruise_mach phase theta_trim s))
  /\ (forall s,
        Simulation.ap_m_f_burnt s
        <= Simulation.ap_m_f_burnt
             (Simulation.approach_step atm aero time_step gamma s)).
Proof.
  split; intros s.
  - rewrite euler_step_fuel. unfold Simulation.mg_to_g.
    pose proof (Rabs_pos (Simulation.euler_fuel_flow atm phase s * time_step)).
    lra.
  - change (Simulation.ap_m_f_burnt
              (Simulation.approach_step atm aero time_step gamma s))
      with (Simulation.ap_m_f_burnt s
            + Simulation.mg_to_g
                (NumPy.abs (Simulation.approach_dm atm aero time_step gamma s))).
    unfold Simulation.mg_to_g, NumPy.abs.
    pose proof (Rabs_pos (Simulation.approach_dm atm aero time_step gamma s)).
    lra.
Qed.

(** ** Equations of motion *)

(** X17.  For a positive weight the acceleration [inst_dv_dt] is
    [g / w] times the excess thrust [thrust - drag - w sin(gamma)] within
    half a unit of the fourth decimal, and has its sign: it is at least
    0.0001 when the exact value is, at most -0.0001 when the exact value
    is, and zero at zero excess.  For a positive weight and true airspeed
    the rate [inst_dgamma_dt] is positive, zero or negative exactly as
    [lift - w] is. *)
Theorem equations_of_motion_signs (thrust drag w gamma lift v_tas : R) :
  0 < w -> 0 < v_tas ->
  let excess := thrust - drag - w * sin gamma in
  let exact := Const.Grav_const / w * excess in
  Rabs (Eom.inst_dv_dt thrust drag w gamma - exact) <= / 2 * / 10 ^ 4
  /\ (0 <= excess -> 0 <= Eom.inst_dv_dt thrust drag w gamma)
  /\ (excess <= 0 -> Eom.inst_dv_dt thrust drag w gamma <= 0)
  /\ (excess = 0 -> Eom.inst_dv_dt thrust drag w gamma = 0)
  /\ (1 / 10 ^ 4 <= exact ->
      1 / 10 ^ 4 <= Eom.inst_dv_dt thrust drag w gamma)
  /\ (exact <= - (1 / 10 ^ 4) ->
      Eom.inst_dv_dt thrust drag w gamma <= - (1 / 10 ^ 4))
  /\ (w < lift <-> 0 < Eom.inst_dgamma_dt lift w v_tas)
  /\ (lift = w <-> Eom.inst_dgamma_dt lift w v_tas = 0)
  /\ (lift < w <-> Eom.inst_dgamma_dt lift w v_tas < 0).
Proof.
  intros Hw Hv excess exact.
  assert (Hgw : 0 < Const.Grav_const / w).
  { apply Rdiv_lt_0_compat; [unfold Const.Grav_const; lra | exact Hw]. }
  assert (Hiv : 0 < 1 / v_tas) by (apply Rdiv_lt_0_compat; lra).
  assert (Hk : 0 < Const.Grav_const / w * (1 / v_tas))
    by (apply Rmult_lt_0_compat; assumption).
  assert (Hp4 : NumPy.round (1 / 10 ^ 4) 4 = 1 / 10 ^ 4)
    by apply (round_decimal 1 4).
  assert (Hm4 : NumPy.round (- (1 / 10 ^ 4)) 4 = - (1 / 10 ^ 4)).
  { replace (- (1 / 10 ^ 4)) with (IZR (-1) / 10 ^ 4) by (simpl; lra).
    apply (round_decimal (-1) 4). }
  unfold Eom.inst_dv_dt, Eom.inst_dgamma_dt. fold excess. fold exact.
  set (k := Const.Grav_const / w * (1 / v_tas)) in *.
  split; [apply round_error |].
  split; [intros H; apply round_nonneg; unfold exact; nra |].
  split; [intros H; apply round_nonpos; unfold exact; nra |].
  split; [intros H; unfold exact; rewrite H, Rmult_0_r; apply round_0 |].
  split; [intros H; rewrite <- Hp4 at 1; apply round_mono, H |].
  split; [intros H; rewrite <- Hm4; apply round_mono, H |].
  split; [| split]; split; intros H; nra.
Qed.

Lemma equations_of_motion_signs_witness :
  1 / 10 ^ 4 <= Eom.inst_dv_dt 900000 200000 3600000 0.
Proof.
  apply (equations_of_motion_signs 900000 200000 3600000 0 3600000 130);
    try lra.
  rewrite sin_0. unfold Const.Grav_const. simpl. lra.
Defined.

(** ** Phases the pitch law does not know *)

(** X18.  [pilot_pitch_control] treats every phase other than "climb" as a
    descent, whatever the string: the error is taken against the calibrated
    airspeed of the cruise Mach number while the airspeed rounded to an
    integer is below [v_ref], and against [v_ref] otherwise. *)
Theorem pilot_pitch_control_other_phase
    (atm : Atmosphere) (k_p theta_trim v_ref v_ias h cruise_mach : R)
    (phase : string) :
  phase <> "climb"%string ->
  let theta :=
    PilotControl.pilot_pitch_control atm k_p theta_trim v_ref v_ias h
      cruise_mach phase in
  (NumPy.round v_ias 0 < v_ref ->
   theta = k_p * (v_ias - cas_of_cruise_mach atm cruise_mach h) + theta_trim)
  /\ (~ NumPy.round v_ias 0 < v_ref ->
      theta = k_p * (v_ias - v_ref) + theta_trim).
Proof.
  intros Hne theta. unfold theta, PilotControl.pilot_pitch_control,
    cas_of_cruise_mach.
  apply String.eqb_neq in Hne. rewrite Hne.
  split; intros Hc; destruct (Rlt_dec _ v_ref); try contradiction; ring.
Qed.

Lemma pilot_pitch_control_other_phase_witness :
  PilotControl.pilot_pitch_control atm_sea_level (1 / 100) (5 / 100) 130 140 0
    (85 / 100) "descent_approach"
  = 1 / 100 * (140 - 130) + 5 / 100.
Proof.
  apply (pilot_pitch_control_other_phase atm_sea_level (1 / 100) (5 / 100)
           130 140 0 (85 / 100) "descent_approach").
  - discriminate.
  - change 140 with (IZR 140). rewrite round_IZR. lra.
Defined.

(** ** Steady lift coefficient *)

(** X19.  The steady lift coefficient is never negative for a non-negative
    weight and grows with the weight, at a non-zero true airspeed and for a
    positive density and wing area. *)
Theorem c_l_steady_monotone_in_weight
    (atm : Atmosphere) (v_cas altitude w1 w2 wing_area : R) :
  0 < density atm altitude -> 0 < wing_area ->
  Airspeed.cas2tas atm v_cas altitude <> 0 ->
  0 <= w1 <= w2 ->
  0 <= Aerodynamics.c_l_steady atm v_cas altitude w1 wing_area
  <= Aerodynamics.c_l_steady atm v_cas altitude w2 wing_area.
Proof.
  intros Hrho HS Hv Hw. unfold Aerodynamics.c_l_steady. cbv zeta.
  set (v_tas := Airspeed.cas2tas atm v_cas altitude) in *.
  assert (Hd : 0 < density atm altitude * wing_area * v_tas ^ 2).
  { apply Rmult_lt_0_compat; [apply Rmult_lt_0_compat; assumption |].
    pose proof (pow2_ge_0 v_tas).
    destruct (Req_dec (v_tas ^ 2) 0) as [Hz | Hnz]; [| lra].
    exfalso. apply Hv. nra. }
  assert (Hi : 0 < / (density atm altitude * wing_area * v_tas ^ 2))
    by (apply Rinv_0_lt_compat, Hd).
  split.
  - apply round_nonneg. apply Rmult_le_pos; lra.
  - apply round_mono. apply Rmult_le_compat_r; lra.
Qed.

Lemma c_l_steady_monotone_in_weight_witness :
  0 <= Aerodynamics.c_l_steady atm_sea_level 130 0 3000000 500
  <= Aerodynamics.c_l_steady atm_sea_level 130 0 3600000 500.
Proof.
  apply (c_l_steady_monotone_in_weight atm_sea_level 130 0 3000000 3600000
           500); try (simpl; lra).
  rewrite (cas2tas_uniform 130) by lia. lra.
Defined.

(** ** Overshoot of the stop altitude *)

(** X20.  A climb entered below 10000 m ends less than one step's travel
    above 10000 m, and a descent entered above 1000 m less than one step's
    travel below 1000 m: the last altitude is within [|v_tas * dt|] of the
    threshold, [v_tas] being the true airspeed at the start of the last
    step. *)
Theorem simulation_euler_overshoot
    (atm : Atmosphere) (aero : AeroChar) (ics : Simulation.Ics)
    (time_step : R) (pcm : Simulation.ControlModel)
    (k_p v_ref cruise_mach : R) (phase : string) (fuel : nat)
    (res : Simulation.Res) :
  let state_at k :=
    Simulation.euler_iter atm aero time_step pcm k_p v_ref cruise_mach phase
      (Simulation.euler_theta_trim atm aero ics phase) k
      (Simulation.euler_start atm aero ics phase) in
  Simulation.simulation_euler atm aero fuel ics time_step pcm k_p v_ref
    cruise_mach phase = Simulation.Returned res ->
  exists n,
    List.length (Simulation.res_h res) = S (S n)
    /\ (phase = "climb"%string -> Simulation.ics_h ics < 10000 ->
        10000 <= last_R (Simulation.res_h res)
        < 10000 + Rabs (Simulation.st_v_tas (state_at n) * time_step))
    /\ (phase = "descent"%string -> Simulation.ics_h ics > 1000 ->
        1000 - Rabs (Simulation.st_v_tas (state_at n) * time_step)
        < last_R (Simulation.res_h res) <= 1000).
Proof.
  intros state_at Hret.
  destruct (simulation_euler_returned_inv atm aero ics time_step pcm k_p
              v_ref cruise_mach phase fuel res Hret)
    as [n [_ [Hlast [Hstop Hno]]]].
  fold (state_at (S n)) in Hlast, Hstop.
  assert (Hlen : List.length (Simulation.res_h res) = S (S n)).
  { unfold Simulation.simulation_euler in Hret.
    apply euler_loop_returned_inv in Hret.
    destruct Hret as [m [_ [Hs [Hn Hres]]]].
    assert (m = n).
    { destruct (Nat.lt_trichotomy m n) as [Hlt | [Heq | Hgt]];
        [| exact Heq |].
      - specialize (Hno m Hlt). congruence.
      - specialize (Hn n Hgt). unfold state_at in Hstop. congruence. }
    subst m res. rewrite euler_trace_h, length_app, length_map, length_seq.
    reflexivity. }
  assert (Hprev : n <> 0%nat ->
                  Simulation.stop_condition phase
                    (Simulation.st_h (state_at n)) = false).
  { intros Hn. destruct n as [| n]; [contradiction |]. apply Hno. lia. }
  assert (Hstep : Rabs (Simulation.st_h (state_at (S n))
                        - Simulation.st_h (state_at n))
                  <= Rabs (Simulation.st_v_tas (state_at n) * time_step)).
  { unfold state_at. rewrite euler_iter_S, euler_step_h.
    match goal with
    | |- Rabs (?a + ?v * sin ?g * ?t - ?a) <= _ =>
        replace (a + v * sin g * t - a) with (sin g * (v * t)) by ring;
        rewrite Rabs_mult;
        pose proof (Rabs_pos (v * t));
        assert (Rabs (sin g) <= 1)
          by (apply Rabs_le; pose proof (SIN_bound g); lra)
    end.
    nra. }
  apply Rabs_le_bounds in Hstep.
  assert (H0 : Simulation.st_h (state_at 0%nat) = Simulation.ics_h ics)
    by reflexivity.
  exists n. split; [exact Hlen |]. split.
  - intros -> Hstart. rewrite Hlast.
    apply stop_condition_climb in Hstop.
    assert (Hbelow : Simulation.st_h (state_at n) < 10000).
    { destruct n as [| n]; [rewrite H0; exact Hstart |].
      specialize (Hprev ltac:(lia)).
      destruct (Rlt_dec (Simulation.st_h (state_at (S n))) 10000)
        as [Hlt | Hge]; [exact Hlt | exfalso].
      assert (Hs : Simulation.stop_condition "climb"
                     (Simulation.st_h (state_at (S n))) = true)
        by (apply stop_condition_climb; lra).
      congruence. }
    lra.
  - intros -> Hstart. rewrite Hlast.
    apply stop_condition_descent in Hstop.
    assert (Habove : Simulation.st_h (state_at n) > 1000).
    { destruct n as [| n]; [rewrite H0; exact Hstart |].
      specialize (Hprev ltac:(lia)).
      destruct (Rlt_dec 1000 (Simulation.st_h (state_at (S n))))
        as [Hlt | Hge]; [exact Hlt | exfalso].
      assert (Hs : Simulation.stop_condition "descent"
                     (Simulation.st_h (state_at (S n))) = true)
        by (apply stop_condition_descent; lra).
      congruence. }
    lra.
Qed.

(** A descent entered at 1010 m in a 30-degree glide at 130 m/s is at
    945 m after one second. *)
Lemma simulation_euler_overshoot_witness :
  exists n,
    1000
    - Rabs
        (Simulation.st_v_tas
           (Simulation.euler_iter atm_sea_level (aero_glide atm_sea_level) 1
              (PilotControl.pilot_pitch_control atm_sea_level) (1 / 100) 130
              (85 / 100) "descent"
              (Simulation.euler_theta_trim atm_sea_level
                 (aero_glide atm_sea_level) ics_descent_high_example
                 "descent") n
              (Simulation.euler_start atm_sea_level
                 (aero_glide atm_sea_level) ics_descent_high_example
                 "descent")) * 1)
    < last_R
        (Simulation.res_h
           (outcome_res
              (Simulation.simulation_euler atm_sea_level
                 (aero_glide atm_sea_level) 1 ics_descent_high_example 1
                 (PilotControl.pilot_pitch_control atm_sea_level) (1 / 100)
                 130 (85 / 100) "descent")))
    <= 1000.
Proof.
  assert (Hret :
    Simulation.simulation_euler atm_sea_level (aero_glide atm_sea_level) 1
      ics_descent_high_example 1
      (PilotControl.pilot_pitch_control atm_sea_level) (1 / 100) 130
      (85 / 100) "descent"
    = Simulation.Returned
        (euler_trace atm_sea_level (aero_glide atm_sea_level) 1
           (PilotControl.pilot_pitch_control atm_sea_level) (1 / 100) 130
           (85 / 100) "descent"
           (Simulation.euler_theta_trim atm_sea_level
              (aero_glide atm_sea_level) ics_descent_high_example "descent")
           1
           (Simulation.euler_start atm_sea_level (aero_glide atm_sea_level)
              ics_descent_high_example "descent")
           (Simulation.euler_init_res atm_sea_level
              (aero_glide atm_sea_level) ics_descent_high_example
              "descent"))).
  { unfold Simulation.simulation_euler.
    apply (euler_loop_returns _ _ _ _ _ _ _ _ _ 0 1);
      [lia | | intros k Hk; lia].
    apply stop_condition_descent.
    rewrite euler_iter_S_l. cbn [Simulation.euler_iter].
    rewrite euler_step_h.
    cbn [Simulation.euler_start Simulation.st_h Simulation.st_v_tas
         Simulation.st_gamma Simulation.ics_h Simulation.ics_v_ias
         ics_descent_high_example Simulation.euler_init_gamma
         gamma_steady_straight aero_glide].
    rewrite (cas2tas_uniform 130), sin_neg, sin_PI6 by lia.
    lra. }
  destruct (simulation_euler_overshoot atm_sea_level
              (aero_glide atm_sea_level) ics_descent_high_example 1
              (PilotControl.pilot_pitch_control atm_sea_level) (1 / 100) 130
              (85 / 100) "descent" 1 _ Hret)
    as [n [_ [_ Hdescent]]].
  exists n. rewrite Hret. apply Hdescent; [reflexivity | simpl; lra].
Defined.

(** ** Result files of different phases *)

Section ResultFileFacts.
Import Simulation.

(** The decimal writing of an integer does not start with the letter a. *)
Lemma str_of_int_not_a (z : Z) (rest rest' : string) :
  (str_of_int z ++ String "_"%char rest)%string <> String "a"%char rest'.
Proof.
  unfold str_of_int, NilEmpty.string_of_int.
  destruct (Z.to_int z) as [d | d]; [| simpl; discriminate].
  destruct d; simpl; discriminate.
Qed.

End ResultFileFacts.

(** X21.  The result files of two different valid phases are different
    files, whatever the weights and speeds: a descent never reads or
    overwrites the file of a descent approach, nor a climb that of a
    descent. *)
Theorem result_files_of_phases_differ
    (phase1 phase2 : string) (w1 v_ref1 w2 v_ref2 : R) :
  In phase1 ["climb"; "descent"; "descent_approach"]%string ->
  In phase2 ["climb"; "descent"; "descent_approach"]%string ->
  phase1 <> phase2 ->
  Simulation.result_file_path phase1 w1 v_ref1
  <> Simulation.result_file_path phase2 w2 v_ref2.
Proof.
  intros H1 H2 Hne Heq. unfold Simulation.result_file_path in Heq.
  simpl in H1, H2.
  destruct H1 as [<- | [<- | [<- | []]]];
    destruct H2 as [<- | [<- | [<- | []]]];
    try (now apply Hne); simpl in Heq; try discriminate Heq;
    injection Heq as Heq.
  - now apply str_of_int_not_a in Heq.
  - symmetry in Heq. now apply str_of_int_not_a in Heq.
Qed.

Lemma result_files_of_phases_differ_witness :
  Simulation.result_file_path "descent" 3000000 130
  <> Simulation.result_file_path "descent_approach" 3000000 130.
Proof.
  apply result_files_of_phases_differ; [simpl; tauto | simpl; tauto |].
  discriminate.
Defined.
